(** * pl-supernode: the SuperNode supervisor of [app.py]

    A shallow embedding of [app.py] and the properties of its process
    supervision, summary extraction, cleanup and result-file logic.

    Conventions of the embedding.
    - A Python [str] is a [string]; a character is a code point below 256.
    - A Python [int] is a [Z]; [str(n)] is [pretty n].
    - Time is counted in whole time units ([nat]); the default grace period
      of [_terminate_process] is [10].
    - A call either returns, raises, or never returns: [Ok], [Raise],
      [Blocked].  State changes made before a [raise] are kept.
    - A signal handler runs on top of the call that the signal interrupts.
      The functions that the handler reaches take that call as their
      [Frame]; [_run_supernode] and [_plugin_main] are run by no handler and
      call them in the frame [main_thread].
    - [print] writes to the plugin's console, which nothing in the program
      reads back; the console is not part of the modelled state.
    - The two relay threads of [_run_supernode] share no modelled state: the
      stdout relay is the only writer of the summary slot and the main thread
      reads the slot after [join].  Their effects are applied at [join].
    - What the program obtains from outside itself (the [json] module, the
      executable search of the operating system, the password database and
      [chris_plugin_info]) is collected in the class [Externals]. *)

From Stdlib Require Import Ascii.
From stdpp Require Import gmap strings list pretty.

Local Set Warnings "-register-all".
Local Open Scope string_scope.
Local Open Scope Z_scope.

(** ** Python strings *)

Module Str.

(** [str.isspace] on one character, for code points below 256. *)
Definition isspace (c : Ascii.ascii) : bool :=
  let n := Ascii.N_of_ascii c in
  ((9 <=? n) && (n <=? 13) || (28 <=? n) && (n <=? 32)
   || (n =? 133) || (n =? 160))%N.

Fixpoint lstrip (s : string) : string :=
  match s with
  | EmptyString => EmptyString
  | String c s' => if isspace c then lstrip s' else s
  end.

Fixpoint rstrip (s : string) : string :=
  match s with
  | EmptyString => EmptyString
  | String c s' =>
      match rstrip s' with
      | EmptyString => if isspace c then EmptyString else String c EmptyString
      | r => String c r
      end
  end.

Definition strip (s : string) : string := rstrip (lstrip s).

(** [str.rstrip(chars)] for a one-character set. *)
Fixpoint rstrip_char (x : Ascii.ascii) (s : string) : string :=
  match s with
  | EmptyString => EmptyString
  | String c s' =>
      match rstrip_char x s' with
      | EmptyString => if Ascii.eqb c x then EmptyString else String c EmptyString
      | r => String c r
      end
  end.

Fixpoint drop (n : nat) (s : string) : string :=
  match n, s with
  | O, _ => s
  | S n', String _ s' => drop n' s'
  | S _, EmptyString => EmptyString
  end.

(** [s.split(sep, maxsplit=1)] for a non-empty separator: the text before
    and after the leftmost occurrence of [sep], or [s] alone. *)
Fixpoint split1 (sep s : string) : list string :=
  if String.prefix sep s then [EmptyString; drop (String.length sep) s]
  else
    match s with
    | EmptyString => [EmptyString]
    | String c s' =>
        match split1 sep s' with
        | [before; after] => [String c before; after]
        | _ => [s]
        end
    end.

(** [sub in s]. *)
Fixpoint contains (sub s : string) : bool :=
  String.prefix sub s ||
  match s with
  | EmptyString => false
  | String _ s' => contains sub s'
  end.

Fixpoint lstrip_char (x : Ascii.ascii) (s : string) : string :=
  match s with
  | EmptyString => EmptyString
  | String c s' => if Ascii.eqb c x then lstrip_char x s' else s
  end.

(** [s.split(sep)] on a one-character separator. *)
Fixpoint split_char (sep : Ascii.ascii) (s : string) : list string :=
  match s with
  | EmptyString => [EmptyString]
  | String c s' =>
      if Ascii.eqb c sep then EmptyString :: split_char sep s'
      else
        match split_char sep s' with
        | w :: ws => String c w :: ws
        | [] => [String c EmptyString]
        end
  end.

(** [sep.join(l)]. *)
Fixpoint join (sep : string) (l : list string) : string :=
  match l with
  | [] => EmptyString
  | [x] => x
  | x :: rest => x +:+ sep +:+ join sep rest
  end.

(** [s.strip(chars)] for a one-character set. *)
Definition strip_char (x : Ascii.ascii) (s : string) : string :=
  rstrip_char x (lstrip_char x s).

(** The characters at which [str.splitlines] breaks a line, below 256. *)
Definition is_linebreak (c : Ascii.ascii) : bool :=
  let n := Ascii.N_of_ascii c in
  ((10 <=? n) && (n <=? 13) || (28 <=? n) && (n <=? 30) || (n =? 133))%N.

(** [s.splitlines()]: a carriage return followed by a line feed is one
    break, and a final break opens no further line. *)
Fixpoint splitlines (s : string) : list string :=
  match s with
  | EmptyString => []
  | String c r =>
      if is_linebreak c then
        EmptyString ::
        match r with
        | String c' r' =>
            if ((Ascii.N_of_ascii c =? 13) && (Ascii.N_of_ascii c' =? 10))%N
            then splitlines r' else splitlines r
        | EmptyString => []
        end
      else
        match splitlines r with
        | [] => [String c EmptyString]
        | l :: ls => String c l :: ls
        end
  end.

End Str.

(** ** Exceptions and results *)

Inductive exn :=
  | ValueError (msg : string)
  | RuntimeError (msg : string)
  | AttributeError (msg : string)
  | IndexError
  | ReferenceError
  | JSONDecodeError
  | FileNotFoundError
  | FileExistsError
  | NotADirectoryError
  | IsADirectoryError
  | TimeoutExpired (timeout : nat)
  | SystemExit (code : Z).

(** [except Exception] catches everything but [SystemExit]. *)
Definition is_Exception (e : exn) : bool :=
  match e with SystemExit _ => false | _ => true end.

(** [except OSError]. *)
Definition is_OSError (e : exn) : bool :=
  match e with
  | FileNotFoundError | FileExistsError | NotADirectoryError | IsADirectoryError => true
  | _ => false
  end.

(** [except json.JSONDecodeError]. *)
Definition is_JSONDecodeError (e : exn) : bool :=
  match e with JSONDecodeError => true | _ => false end.

(** [except FileNotFoundError]. *)
Definition is_FileNotFoundError (e : exn) : bool :=
  match e with FileNotFoundError => true | _ => false end.

Inductive result (A : Type) :=
  | Ok (a : A)
  | Raise (e : exn)
  | Blocked.
Arguments Ok {A} a.
Arguments Raise {A} e.
Arguments Blocked {A}.

(** A computation over a mutable state [S]. *)
Definition M (S A : Type) : Type := S → result A * S.

Definition ret {S A} (a : A) : M S A := λ s, (Ok a, s).
Definition raise {S A} (e : exn) : M S A := λ s, (Raise e, s).
Definition bind {S A B} (m : M S A) (k : A → M S B) : M S B := λ s,
  match m s with
  | (Ok a, s') => k a s'
  | (Raise e, s') => (Raise e, s')
  | (Blocked, s') => (Blocked, s')
  end.
Definition get {S} : M S S := λ s, (Ok s, s).
Definition modify {S} (f : S → S) : M S unit := λ s, (Ok tt, f s).

Global Instance M_ret {S} : MRet (M S) := λ A, @ret S A.
Global Instance M_bind {S} : MBind (M S) := λ A B k m, @bind S A B m k.

(** [try: body / except <cls>: handler], [cls] given as its membership test. *)
Definition try_except {S A} (body : M S A) (cls : exn → bool)
    (handler : exn → M S A) : M S A := λ s,
  match body s with
  | (Raise e, s') => if cls e then handler e s' else (Raise e, s')
  | r => r
  end.

(** [try: body / finally: final].  A body that never returns never reaches
    the [finally] block. *)
Definition try_finally {S A} (body : M S A) (final : M S unit) : M S A := λ s,
  match body s with
  | (Ok a, s') =>
      match final s' with
      | (Ok _, s'') => (Ok a, s'')
      | (Raise e, s'') => (Raise e, s'')
      | (Blocked, s'') => (Blocked, s'')
      end
  | (Raise e, s') =>
      match final s' with
      | (Ok _, s'') => (Raise e, s'')
      | (Raise e', s'') => (Raise e', s'')
      | (Blocked, s'') => (Blocked, s'')
      end
  | (Blocked, s') => (Blocked, s')
  end.

(** [for x in l: body x]. *)
Fixpoint for_each {S A} (l : list A) (body : A → M S unit) : M S unit :=
  match l with
  | [] => ret tt
  | x :: rest => bind (body x) (λ _, for_each rest body)
  end.

(** [threading.Thread(target=...)] run to completion and joined: an exception
    that escapes the target ends the thread and is not seen by [join]. *)
Definition Thread_join {S} (target : M S unit) : M S unit := λ s,
  match target s with
  | (Raise _, s') => (Ok tt, s')
  | r => r
  end.

(** ** JSON values, as [json.loads] builds them *)

Inductive json :=
  | JNone
  | JBool (b : bool)
  | JInt (n : Z)
  | JFloat (bits : Z)     (* a float, as its IEEE-754 binary64 pattern *)
  | JStr (s : string)
  | JList (l : list json)
  | JDict (d : list (string * json)).

Definition type_name (v : json) : string :=
  match v with
  | JNone => "NoneType" | JBool _ => "bool" | JInt _ => "int"
  | JFloat _ => "float" | JStr _ => "str" | JList _ => "list"
  | JDict _ => "dict"
  end.

Fixpoint dict_lookup (d : list (string * json)) (k : string) : option json :=
  match d with
  | [] => None
  | (k', v) :: rest => if String.eqb k' k then Some v else dict_lookup rest k
  end.

(** [v.get(k)]: defined on a [dict] only. *)
Definition py_get {S} (v : json) (k : string) : M S json :=
  match v with
  | JDict d => ret (default JNone (dict_lookup d k))
  | _ => raise (AttributeError ("'" +:+ type_name v +:+ "' object has no attribute 'get'"))
  end.

(** [v == s] for a string literal [s]. *)
Definition py_eq_str (v : json) (s : string) : bool :=
  match v with JStr t => String.eqb t s | _ => false end.


(** ** Processes, as [subprocess.Popen] shows them *)

Definition SIGINT : Z := 2.
Definition SIGKILL : Z := 9.
Definition SIGTERM : Z := 15.

(** The child behind a handle, seen through its pipes and its exit status
    only.  A running child ends by itself after
    [life] (time left, exit status) if it ever does, and, once SIGTERM has
    been delivered, after [term] (time it needs to shut down, exit status)
    unless it ignores the signal. *)
Inductive child_state :=
  | Running (life term : option (nat * Z)) (signalled : bool)
  | Exited (status : Z).

Record Popen := mkPopen {
  args : list string;
  stdout : option (list string);   (* the lines the child writes to its pipe *)
  stderr : option (list string);
  returncode : option Z;
  child : child_state;
}.

Definition set_returncode (rc : option Z) (p : Popen) : Popen :=
  mkPopen (args p) (stdout p) (stderr p) rc (child p).
Definition set_child (c : child_state) (p : Popen) : Popen :=
  mkPopen (args p) (stdout p) (stderr p) (returncode p) c.

Definition next_exit (life term : option (nat * Z)) (signalled : bool)
    : option (nat * Z) :=
  match life, (if signalled then term else None) with
  | Some (a, x), Some (b, y) => if (b <=? a)%nat then Some (b, y) else Some (a, x)
  | Some l, None => Some l
  | None, t => t
  end.

Definition tick (n : nat) (o : option (nat * Z)) : option (nat * Z) :=
  match o with Some (a, x) => Some ((a - n)%nat, x) | None => None end.

(** The child after [timeout] time units, or after however long it takes
    to exit ([None]). *)
Definition elapse (timeout : option nat) (c : child_state) : child_state :=
  match c with
  | Exited s => Exited s
  | Running life term sig =>
      match next_exit life term sig, timeout with
      | Some (_, s), None => Exited s
      | Some (d, s), Some n =>
          if (d <=? n)%nat then Exited s
          else Running (tick n life) (if sig then tick n term else term) sig
      | None, _ => Running life term sig
      end
  end.

Definition deliver (sig : Z) (c : child_state) : child_state :=
  match c with
  | Exited s => Exited s
  | Running life term signalled =>
      if sig =? SIGKILL then Exited (- SIGKILL)
      else if sig =? SIGTERM then Running life term true
      else c
  end.

(** *** The lock around [waitpid]

    A [Popen] object guards [os.waitpid] by [_waitpid_lock], a lock that is
    not reentrant.  [wait()] holds it for as long as it waits; [poll()] and
    [wait(timeout)] only try it, and take a held lock for "nothing known
    yet".  Every method releases the lock before it returns or raises, so
    code that runs in sequence finds the lock of every object free.

    A signal handler runs in the main thread, on top of the call that the
    signal has interrupted.  When that call is [proc.wait()], the handler
    finds the lock of [proc] held, by a frame that cannot go on before the
    handler has returned.  [Frame] names the object whose [wait()] the
    running code has interrupted, if any; the methods below take [locked],
    whether the lock of their object is held in that way. *)
Class Frame := interrupted_wait : option nat.

(** Code that no signal handler runs has interrupted nothing. *)
#[global] Instance main_thread : Frame := None.

Definition holds_lock `{F : Frame} (proc : nat) : bool :=
  match interrupted_wait with
  | Some h => bool_decide (h = proc)
  | None => false
  end.

(** [Popen.poll()]: with the status not yet known and the lock held, the
    answer is [None] whatever the child has done. *)
Definition Popen_poll (locked : bool) : M Popen (option Z) := λ p,
  match returncode p with
  | Some rc => (Ok (Some rc), p)
  | None =>
      if locked then (Ok None, p)
      else
        match child p with
        | Exited s => (Ok (Some s), set_returncode (Some s) p)
        | Running _ _ _ => (Ok None, p)
        end
  end.

(** [Popen.send_signal(sig)]: nothing is sent to a child that is known to
    have exited; [os.kill] on a child that is dead but not known to be has
    no effect. *)
Definition Popen_send_signal (locked : bool) (sig : Z) : M Popen unit :=
  rc ← Popen_poll locked;
  match rc with
  | Some _ => ret tt
  | None => modify (λ p, set_child (deliver sig (child p)) p)
  end.

(** [Popen.wait(timeout)].  With the lock held, [wait(timeout)] never gets
    to [waitpid] and raises [TimeoutExpired] when the time is up, and
    [wait()] waits for the lock, which the frame beneath it cannot
    release. *)
Definition Popen_wait (locked : bool) (timeout : option nat) : M Popen Z := λ p,
  match returncode p with
  | Some rc => (Ok rc, p)
  | None =>
      if locked then
        match timeout with
        | Some n => (Raise (TimeoutExpired n), set_child (elapse (Some n) (child p)) p)
        | None => (Blocked, p)
        end
      else
        match elapse timeout (child p) with
        | Exited s => (Ok s, set_returncode (Some s) (set_child (Exited s) p))
        | c' =>
            match timeout with
            | Some n => (Raise (TimeoutExpired n), set_child c' p)
            | None => (Blocked, set_child c' p)
            end
        end
  end.

(** The calls the program makes on a handle. *)
Inductive call :=
  | Poll
  | Terminate
  | Kill
  | Wait (timeout : option nat).

(** ** Paths and the file system

    The file system is a finite map from absolute locations (the list of
    names from the root) to directories and files; the root is always a
    directory.  There are no symbolic links and no permissions: a call fails
    only for a missing entry, an entry that is in the way, or a file where a
    directory is needed. *)

Record Path := mkPath {
  root : string;            (* empty for a relative path, else / or // *)
  parts : list string;
}.

Inductive node :=
  | Dir
  | File (content : string).

(** ** The state of the running plugin *)

Record World := mkWorld {
  environ : gmap string string;        (* os.environ *)
  cwd : list string;
  fs : gmap (list string) node;        (* entries by absolute location *)
  procs : gmap nat Popen;              (* the Popen objects, by handle *)
  CHILDREN : list nat;
  handlers : gset Z;                   (* signals handled by _handle *)
  argv : list string;                  (* sys.argv *)
  calls : list (nat * call);           (* Popen calls made so far *)
}.

Definition set_fs (f : gmap (list string) node) (w : World) : World :=
  mkWorld (environ w) (cwd w) f (procs w) (CHILDREN w) (handlers w) (argv w) (calls w).
Definition set_procs (ps : gmap nat Popen) (w : World) : World :=
  mkWorld (environ w) (cwd w) (fs w) ps (CHILDREN w) (handlers w) (argv w) (calls w).
Definition set_CHILDREN (l : list nat) (w : World) : World :=
  mkWorld (environ w) (cwd w) (fs w) (procs w) l (handlers w) (argv w) (calls w).
Definition set_handlers (h : gset Z) (w : World) : World :=
  mkWorld (environ w) (cwd w) (fs w) (procs w) (CHILDREN w) h (argv w) (calls w).
Definition set_argv (a : list string) (w : World) : World :=
  mkWorld (environ w) (cwd w) (fs w) (procs w) (CHILDREN w) (handlers w) a (calls w).
Definition set_calls (c : list (nat * call)) (w : World) : World :=
  mkWorld (environ w) (cwd w) (fs w) (procs w) (CHILDREN w) (handlers w) (argv w) c.

(** What [execvpe] finds for a command line and an environment. *)
Record Program := mkProgram {
  out_lines : list string;
  err_lines : list string;
  lifetime : option (nat * Z);
  on_sigterm : option (nat * Z);
}.

Class Externals := {
  (** [json.loads]: the value, or the exception that the call raises.  That
      is [json.JSONDecodeError] for a text that is not JSON, and it can be
      another one: [ValueError] for an integer literal over the digit limit
      of [int], [RecursionError] for a text nested too deep. *)
  json_loads : string → exn + json;
  (** [json.dumps(v, indent=n)] *)
  json_dumps : json → Z → string;
  (** the program started for a command line, if its executable is found *)
  os_exec : list string → gmap string string → option Program;
  (** [pwd.getpwuid(os.getuid()).pw_dir] *)
  getpwuid_dir : option string;
  (** [pwd.getpwnam(name).pw_dir] *)
  getpwnam_dir : string → option string;
  (** [chris_plugin_info.main()] under a given [sys.argv] *)
  chris_plugin_info_main : list string → result unit;
}.

Definition lift {S A} (r : result A) : M S A := λ s, (r, s).

(** *** [pathlib.PurePosixPath] *)

Definition Path_of (s : string) : Path :=
  let stripped := Str.lstrip_char "/"%char s in
  let n := (String.length s - String.length stripped)%nat in
  mkPath (if (n =? 0)%nat then "" else if (n =? 2)%nat then "//" else "/")
         (filter (λ x, x ≠ "" ∧ x ≠ ".") (Str.split_char "/"%char stripped)).

(** [p / key] *)
Definition Path_div (p : Path) (key : string) : Path :=
  let k := Path_of key in
  if decide (root k = "") then mkPath (root p) (parts p ++ parts k)%list else k.

(** [str(p)] *)
Definition Path_str (p : Path) : string :=
  if decide (root p = "" ∧ parts p = []) then "."
  else root p +:+ Str.join "/" (parts p).

(** [p.parent] *)
Definition Path_parent (p : Path) : Path := mkPath (root p) (removelast (parts p)).

(** *** Name resolution *)

Definition stat (f : gmap (list string) node) (k : list string) : option node :=
  match k with [] => Some Dir | _ => f !! k end.

(** Follows directory names from [cur]; every directory entered must exist. *)
Fixpoint walk (f : gmap (list string) node) (cur names : list string)
    : result (list string) :=
  match names with
  | [] => Ok cur
  | c :: rest =>
      let next := if decide (c = "..") then removelast cur else (cur ++ [c])%list in
      match stat f next with
      | Some Dir => walk f next rest
      | Some (File _) => Raise NotADirectoryError
      | None => Raise FileNotFoundError
      end
  end.

Definition split_last {A} (l : list A) : option (list A * A) :=
  match reverse l with
  | [] => None
  | x :: r => Some (reverse r, x)
  end.

(** The directory that holds the last name of [p], and that name. *)
Definition resolve_parent (w : World) (p : Path)
    : result (list string * option string) :=
  let start :=
    if decide (root p = "") then
      match stat (fs w) (cwd w) with
      | Some Dir => Ok (cwd w)
      | Some (File _) => Raise NotADirectoryError
      | None => Raise FileNotFoundError
      end
    else Ok [] in
  match start, split_last (parts p) with
  | Ok d0, None => Ok (d0, None)
  | Ok d0, Some (dirs, name) =>
      match walk (fs w) d0 dirs with
      | Ok d => Ok (d, Some name)
      | Raise e => Raise e
      | Blocked => Blocked
      end
  | Raise e, _ => Raise e
  | Blocked, _ => Blocked
  end.

(** Where [p] points, whether or not anything is there. *)
Definition locate (w : World) (p : Path) : result (list string) :=
  match resolve_parent w p with
  | Ok (d, None) => Ok d
  | Ok (d, Some name) =>
      Ok (if decide (name = "..") then removelast d else (d ++ [name])%list)
  | Raise e => Raise e
  | Blocked => Blocked
  end.

(** [p.is_dir()] *)
Definition Path_is_dir (w : World) (p : Path) : bool :=
  match locate w p with
  | Ok k => match stat (fs w) k with Some Dir => true | _ => false end
  | _ => false
  end.

(** [os.mkdir(p)] *)
Definition os_mkdir (p : Path) : M World unit :=
  w ← get;
  '(d, last) ← lift (resolve_parent w p);
  match last with
  | None => raise FileExistsError
  | Some name =>
      if decide (name = "..") then raise FileExistsError
      else
        match stat (fs w) (d ++ [name])%list with
        | Some _ => raise FileExistsError
        | None => modify (set_fs (<[(d ++ [name])%list := Dir]> (fs w)))
        end
  end.

(** [Path.mkdir(parents=False, exist_ok=...)] *)
Definition Path_mkdir_here (p : Path) (exist_ok : bool) : M World unit :=
  try_except (os_mkdir p) is_OSError (λ e,
    match e with
    | FileNotFoundError => raise e
    | _ => w ← get;
           if negb exist_ok || negb (Path_is_dir w p) then raise e else ret tt
    end).

(** [Path.mkdir(parents=..., exist_ok=...)], by recursion on the reversed
    parts of the path: the parent drops the last part. *)
Fixpoint Path_mkdir_rev (rt : string) (rparts : list string)
    (parents exist_ok : bool) : M World unit :=
  let self := mkPath rt (reverse rparts) in
  try_except (os_mkdir self) is_OSError (λ e,
    match e with
    | FileNotFoundError =>
        match rparts with
        | [] => raise e                       (* self.parent == self *)
        | _ :: rparent =>
            if negb parents then raise e
            else
              Path_mkdir_rev rt rparent true true;;
              Path_mkdir_here self exist_ok
        end
    | _ => w ← get;
           if negb exist_ok || negb (Path_is_dir w self) then raise e else ret tt
    end).

Definition Path_mkdir (p : Path) (parents exist_ok : bool) : M World unit :=
  Path_mkdir_rev (root p) (reverse (parts p)) parents exist_ok.

(** [p.write_text(data)] *)
Definition Path_write_text (p : Path) (data : string) : M World unit :=
  w ← get;
  '(d, last) ← lift (resolve_parent w p);
  match last with
  | None => raise IsADirectoryError
  | Some name =>
      if decide (name = "..") then raise IsADirectoryError
      else
        match stat (fs w) (d ++ [name])%list with
        | Some Dir => raise IsADirectoryError
        | _ => modify (set_fs (<[(d ++ [name])%list := File data]> (fs w)))
        end
  end.

(** [shutil.rmtree(p, ignore_errors=...)]: everything below the directory
    goes, and the directory itself when [p] ends in a proper name. *)
Definition shutil_rmtree (p : Path) (ignore_errors : bool) : M World unit :=
  w ← get;
  try_except
    (k ← lift (locate w p);
     match stat (fs w) k with
     | Some Dir =>
         let keep_top := parts p = [] ∨ last (parts p) = Some ".." in
         modify (set_fs (filter (λ kv, ¬ k `prefix_of` kv.1 ∨ (kv.1 = k ∧ keep_top))
                                (fs w)))
     | Some (File _) => raise NotADirectoryError
     | None => raise FileNotFoundError
     end)
    (λ e, is_OSError e && ignore_errors)
    (λ _, ret tt).

(** *** Handles *)

(** A method call on the object behind [proc]; the call is recorded.  Every
    handle that the program holds has its object; a handle without one is
    kept out of the way as [ReferenceError]. *)
Definition on_proc {A} (proc : nat) (c : call) (method : M Popen A) : M World A :=
  λ w,
  let w := set_calls (calls w ++ [(proc, c)])%list w in
  match procs w !! proc with
  | None => (Raise ReferenceError, w)
  | Some p =>
      let '(r, p') := method p in
      (r, set_procs (<[proc := p']> (procs w)) w)
  end.

Definition proc_poll `{F : Frame} (proc : nat) : M World (option Z) :=
  on_proc proc Poll (Popen_poll (holds_lock proc)).
Definition proc_terminate `{F : Frame} (proc : nat) : M World unit :=
  on_proc proc Terminate (Popen_send_signal (holds_lock proc) SIGTERM).
Definition proc_kill `{F : Frame} (proc : nat) : M World unit :=
  on_proc proc Kill (Popen_send_signal (holds_lock proc) SIGKILL).
Definition proc_wait `{F : Frame} (proc : nat) (timeout : option nat) : M World Z :=
  on_proc proc (Wait timeout) (Popen_wait (holds_lock proc) timeout).

(** ** The program *)

Definition __version__ : string := "0.0.5".
Definition SUMMARY_TOKEN : string := "[fedmed-supernode-app] SUMMARY ".
Definition DEFAULT_SUPERLINK_PORT : Z := 9092.
Definition DEFAULT_CLIENTAPP_PORT : Z := 9094.
Definition DEFAULT_TOTAL_CLIENTS : Z := 3.
Definition DEFAULT_STATE_DIR : Path := Path_of "/tmp/fedmed-flwr-node".
Definition DEFAULT_METRICS_FILE : string := "client_metrics.json".
Definition IMAGE_TAG : string := "docker.io/fedmed/pl-supernode:" +:+ __version__.
Definition REPO_URL : string := "https://github.com/EC528-Fall-2025/FedMed-ChRIS".

Module NodeConfig.
Record t := mk {
  cid : Z;
  total_clients : Z;
  data_seed : Z;
}.

Definition as_flag (self : t) : string :=
  "partition-id=" +:+ pretty (cid self) +:+ " " +:+
  "num-partitions=" +:+ pretty (total_clients self) +:+ " " +:+
  "data-seed=" +:+ pretty (data_seed self).
End NodeConfig.

Record ConnectionTargets := mkConnectionTargets {
  superlink : string;
  clientapp : string;
}.

(** The options the parser hands to the plugin. *)
Record Namespace := mkNamespace {
  cid : Z;
  total_clients : Z;
  superlink_host : string;
  data_seed : Z;
  json_flag : bool;                    (* options.json *)
  superlink_port : Z;
  clientapp_host : string;
  clientapp_port : Z;
  metrics_file : string;
  state_dir : string;
  keep_state : bool;
  transport : string;
}.

(** [build_parser().parse_args([])] *)
Definition default_options : Namespace :=
  mkNamespace 0 DEFAULT_TOTAL_CLIENTS "fedmed-pl-superlink" 13 false
    DEFAULT_SUPERLINK_PORT "0.0.0.0" DEFAULT_CLIENTAPP_PORT
    DEFAULT_METRICS_FILE (Path_str DEFAULT_STATE_DIR) false "grpc-rere".

Definition _register_child (proc : nat) : M World unit :=
  modify (λ w, set_CHILDREN (CHILDREN w ++ [proc])%list w).

Definition is_TimeoutExpired (e : exn) : bool :=
  match e with TimeoutExpired _ => true | _ => false end.

Definition _terminate_process_with `{F : Frame} (proc : nat) (timeout : nat)
    : M World unit :=
  rc ← proc_poll proc;
  match rc with
  | Some _ => ret tt
  | None =>
      proc_terminate proc;;
      try_except (proc_wait proc (Some timeout);; ret tt) is_TimeoutExpired (λ _,
        proc_kill proc;;
        proc_wait proc None;;
        ret tt)
  end.

(** [_terminate_process(proc)], with the default [timeout=10.0]. *)
Definition _terminate_process `{F : Frame} (proc : nat) : M World unit :=
  _terminate_process_with proc 10.

Definition _cleanup_children `{F : Frame} : M World unit :=
  w ← get;
  for_each (reverse (CHILDREN w)) (λ proc,
    try_except (_terminate_process proc) is_Exception (λ _, ret tt));;
  modify (set_CHILDREN []).

(** The handler that [handle_signals] installs; its frame is the call that
    the signal has interrupted. *)
Definition _handle `{F : Frame} (signum : Z) : M World unit :=
  _cleanup_children;;
  raise (SystemExit 1).

Definition handle_signals : M World unit :=
  modify (λ w, set_handlers ({[SIGTERM]} ∪ handlers w) w);;
  modify (λ w, set_handlers ({[SIGINT]} ∪ handlers w) w).

Definition _transport_flag (transport : string) : list string :=
  if decide (transport = "grpc-rere") then ["--grpc-rere"]
  else if decide (transport = "grpc-adapter") then ["--grpc-adapter"]
  else ["--rest"].

(** [for raw in iter(stream.readline, ""): ...] over the lines of a pipe. *)
Fixpoint _stream_loop {S} (lines : list string) (hook : option (string → M S unit))
    : M S unit :=
  match lines with
  | [] => ret tt
  | raw :: rest =>
      if decide (raw = "") then ret tt
      else
        let line := Str.rstrip raw in
        match hook with
        | Some h => h line
        | None => ret tt
        end;;
        _stream_loop rest hook
  end.

Definition _stream_lines {S} (stream : option (list string))
    (hook : option (string → M S unit)) : M S unit :=
  match stream with
  | None => ret tt
  | Some lines => _stream_loop lines hook
  end.

Definition _build_node_config (options : Namespace) : NodeConfig.t :=
  NodeConfig.mk (cid options) (total_clients options) (data_seed options).

Definition _build_targets (options : Namespace) : ConnectionTargets :=
  mkConnectionTargets
    (superlink_host options +:+ ":" +:+ pretty (superlink_port options))
    (clientapp_host options +:+ ":" +:+ pretty (clientapp_port options)).

(** The command line [cmd] that [_run_supernode] builds. *)
Definition cmd (options : Namespace) : list string :=
  let targets := _build_targets options in
  let node_config := _build_node_config options in
  ["flower-supernode"; "--insecure"] ++
  _transport_flag (transport options) ++
  [ "--superlink=" +:+ superlink targets;
    "--clientappio-api-address=" +:+ clientapp targets;
    "--node-config";
    NodeConfig.as_flag node_config ].

Definition subprocess_Popen `{Externals} (argv_ : list string)
    (env : gmap string string) : M World nat := λ w,
  match os_exec argv_ env with
  | None => (Raise FileNotFoundError, w)
  | Some prog =>
      let proc := fresh (dom (procs w)) in
      let obj := mkPopen argv_ (Some (out_lines prog)) (Some (err_lines prog)) None
                         (Running (lifetime prog) (on_sigterm prog) false) in
      (Ok proc, set_procs (<[proc := obj]> (procs w)) w)
  end.

(** The closure [_capture] of [_run_supernode]; its state is the variable
    [metrics] of the enclosing call. *)
Definition _capture `{Externals} (line : string) : M (option json) unit :=
  if Str.contains SUMMARY_TOKEN line then
    match Str.split1 SUMMARY_TOKEN line !! 1%nat with
    | None => raise IndexError
    | Some rest =>
        let payload := Str.strip rest in
        match json_loads payload with
        | inl exc =>
            if is_JSONDecodeError exc then ret tt  (* except json.JSONDecodeError *)
            else raise exc
        | inr parsed =>
            kind ← py_get parsed "kind";
            if py_eq_str kind "train" then modify (λ _, Some parsed)
            else ret tt
        end
    end
  else ret tt.

Definition fallback_metrics (options : Namespace) : json :=
  JDict [ ("kind", JStr "train");
          ("partition_id", JInt (cid options));
          ("metrics", JDict []);
          ("message", JStr "No metrics emitted by the ClientApp.") ].

Definition _run_supernode `{Externals} (options : Namespace)
    (env : gmap string string) : M World json :=
  proc ← subprocess_Popen (cmd options) env;
  _register_child proc;;
  w ← get;
  let stdout_thread :=
    Thread_join (_stream_lines (procs w !! proc ≫= stdout) (Some _capture)) in
  let stderr_thread :=
    Thread_join (_stream_lines (S := unit) (procs w !! proc ≫= stderr) None) in
  exit_code ← proc_wait (F := main_thread) proc None;
  let metrics := (stdout_thread None).2 in
  let _ := stderr_thread tt in
  if negb (exit_code =? 0) then
    raise (RuntimeError ("flower-supernode exited with " +:+ pretty exit_code))
  else
    ret (match metrics with
         | None => fallback_metrics options
         | Some m => m
         end).

(** [os.path.expanduser] on one path component, which holds no slash. *)
Definition os_path_expanduser `{Externals} (env : gmap string string)
    (path : string) : string :=
  if negb (String.prefix "~" path) then path
  else
    let userhome :=
      if decide (path = "~") then
        match env !! "HOME" with
        | Some h => Some h
        | None => getpwuid_dir
        end
      else getpwnam_dir (Str.drop 1 path) in
    match userhome with
    | None => path
    | Some h =>
        let h := Str.rstrip_char "/"%char h in
        if decide (h = "") then "/" else h
    end.

(** [p.expanduser()] *)
Definition Path_expanduser `{Externals} (p : Path) : M World Path :=
  match parts p with
  | first :: rest =>
      if bool_decide (root p = "") && String.prefix "~" first then
        w ← get;
        let homedir := os_path_expanduser (environ w) first in
        if String.prefix "~" homedir then
          raise (RuntimeError "Could not determine home directory.")
        else
          let h := Path_of homedir in
          ret (mkPath (root h) (parts h ++ rest))
      else ret p
  | [] => ret p
  end.

Definition _prepare_environment `{Externals} (state_root : string) (cid : Z)
    : M World (gmap string string * Path) :=
  w ← get;
  let env := environ w in                        (* os.environ.copy() *)
  home ← Path_expanduser (Path_of state_root);
  let flwr_home := Path_div home ("cid-" +:+ pretty cid) in
  Path_mkdir flwr_home true true;;
  let env := <["FLWR_HOME" := Path_str flwr_home]> env in
  ret (env, flwr_home).

Definition emit_plugin_json `{Externals} : M World unit :=
  let argv_ := [ "chris_plugin_info"; "--dock-image"; IMAGE_TAG;
                 "--name"; "pl-supernode"; "--public-repo"; REPO_URL ] in
  w ← get;
  let prev := argv w in
  try_finally
    (modify (set_argv argv_);;
     lift (chris_plugin_info_main argv_))
    (modify (set_argv prev)).

Definition _plugin_main `{Externals} (options : Namespace)
    (inputdir outputdir : Path) : M World unit :=
  handle_signals;;
  if json_flag options then emit_plugin_json
  else if total_clients options <=? 0 then
    raise (ValueError "total-clients must be >= 1")
  else if (cid options <? 0) || (cid options >=? total_clients options) then
    raise (ValueError "cid must be within [0, total-clients)")
  else
    '(env, flwr_home) ← _prepare_environment (state_dir options) (cid options);
    summary ← try_finally (_run_supernode options env)
                          (_cleanup_children (F := main_thread));
    let metrics_path := Path_div outputdir (metrics_file options) in
    Path_write_text metrics_path (json_dumps summary 2);;
    if negb (keep_state options) then shutil_rmtree flwr_home true
    else ret tt.

(** ** [setup.py] *)

(** [p.read_text()] *)
Definition Path_read_text (p : Path) : M World string :=
  w ← get;
  k ← lift (locate w p);
  match stat (fs w) k with
  | Some (File content) => ret content
  | Some Dir => raise IsADirectoryError
  | None => raise FileNotFoundError
  end.

(** The loop of [read_version] over the lines of [app.py]. *)
Fixpoint read_version_lines (lines : list string) : result string :=
  match lines with
  | [] => Raise (RuntimeError "Unable to determine version from app.py")
  | line :: rest =>
      if String.prefix "__version__" line then
        match Str.split_char "="%char line !! 1%nat with
        | Some field =>
            Ok (Str.strip_char "'"%char (Str.strip_char "034"%char (Str.strip field)))
        | None => Raise IndexError
        end
      else read_version_lines rest
  end.

Definition read_version : M World string :=
  text ← Path_read_text (Path_of "app.py");
  lift (read_version_lines (Str.splitlines text)).

(** ** A concrete platform, to run the program on examples

    [Sample.loads] decodes the fragment of JSON made of objects, arrays,
    strings without escapes, integers and the literals [null], [true] and
    [false], the way [json.loads] does, the [ValueError] of an integer
    literal of more than 4300 digits included; any other text is reported
    as a decode error.  It serves to evaluate the program on concrete lines; the
    theorems hold for every decoder. *)

Module Sample.

Definition dquote : ascii := "034"%char.

(** The double-quoted text [s]. *)
Definition q (s : string) : string := String dquote s +:+ String dquote "".

Definition is_digit (c : ascii) : bool :=
  let n := N_of_ascii c in ((48 <=? n) && (n <=? 57))%N.

Fixpoint skip_ws (s : string) : string :=
  match s with
  | String c r =>
      if (N_of_ascii c =? 32)%N || (N_of_ascii c =? 9)%N
         || (N_of_ascii c =? 10)%N || (N_of_ascii c =? 13)%N
      then skip_ws r else s
  | EmptyString => s
  end.

(** The text up to the closing quote, and what follows it. *)
Fixpoint scan_string (s : string) : option (string * string) :=
  match s with
  | EmptyString => None
  | String c r =>
      if Ascii.eqb c dquote then Some (EmptyString, r)
      else if Ascii.eqb c "\"%char || (N_of_ascii c <? 32)%N then None
      else
        match scan_string r with
        | Some (t, r') => Some (String c t, r')
        | None => None
        end
  end.

Fixpoint scan_digits (acc : Z) (s : string) : Z * string :=
  match s with
  | String c r =>
      if is_digit c then scan_digits (10 * acc + (Z.of_N (N_of_ascii c) - 48)) r
      else (acc, s)
  | EmptyString => (acc, s)
  end.

(** [sys.get_int_max_str_digits()] *)
Definition MAX_STR_DIGITS : nat := 4300.

(** An integer literal, converted by [int]: a literal of more digits than
    the limit is a [ValueError], not a decode error. *)
Definition scan_int (s : string) : exn + (Z * string) :=
  let '(neg, s1) :=
    match s with
    | String "-"%char r => (true, r)
    | _ => (false, s)
    end in
  match s1 with
  | String c r =>
      if is_digit c then
        let '(n, rest) :=
          if Ascii.eqb c "0"%char then (0, r) else scan_digits 0 s1 in
        let digits := (String.length s1 - String.length rest)%nat in
        match rest with
        | String "."%char _ | String "e"%char _ | String "E"%char _ =>
            inl JSONDecodeError
        | _ =>
            if (MAX_STR_DIGITS <? digits)%nat then
              inl (ValueError
                     ("Exceeds the limit (4300 digits) for integer string conversion: "
                      +:+ "value has " +:+ pretty (Z.of_nat digits) +:+ " digits; "
                      +:+ "use sys.set_int_max_str_digits() to increase the limit"))
            else inr (if neg then - n else n, rest)
        end
      else inl JSONDecodeError
  | EmptyString => inl JSONDecodeError
  end.

(** [d[k] = v] on a dict kept in insertion order. *)
Fixpoint dict_set (d : list (string * json)) (k : string) (v : json)
    : list (string * json) :=
  match d with
  | [] => [(k, v)]
  | (k', v') :: rest =>
      if String.eqb k' k then (k, v) :: rest else (k', v') :: dict_set rest k v
  end.

Fixpoint value (fuel : nat) (s : string) : exn + (json * string) :=
  match fuel with
  | O => inl JSONDecodeError
  | S fuel =>
      match s with
      | String "n"%char r =>
          if String.prefix "ull" r then inr (JNone, Str.drop 3 r)
          else inl JSONDecodeError
      | String "t"%char r =>
          if String.prefix "rue" r then inr (JBool true, Str.drop 3 r)
          else inl JSONDecodeError
      | String "f"%char r =>
          if String.prefix "alse" r then inr (JBool false, Str.drop 4 r)
          else inl JSONDecodeError
      | String "["%char r =>
          match skip_ws r with
          | String "]"%char r' => inr (JList [], r')
          | r' => elements fuel r' []
          end
      | String "{"%char r =>
          match skip_ws r with
          | String "}"%char r' => inr (JDict [], r')
          | r' => members fuel r' []
          end
      | String c r =>
          if Ascii.eqb c dquote then
            match scan_string r with
            | Some (t, r') => inr (JStr t, r')
            | None => inl JSONDecodeError
            end
          else
            match scan_int s with
            | inr (n, r') => inr (JInt n, r')
            | inl e => inl e
            end
      | EmptyString => inl JSONDecodeError
      end
  end
with elements (fuel : nat) (s : string) (acc : list json) : exn + (json * string) :=
  match fuel with
  | O => inl JSONDecodeError
  | S fuel =>
      match value fuel s with
      | inr (v, r) =>
          match skip_ws r with
          | String ","%char r' => elements fuel (skip_ws r') (acc ++ [v])
          | String "]"%char r' => inr (JList (acc ++ [v]), r')
          | _ => inl JSONDecodeError
          end
      | inl e => inl e
      end
  end
with members (fuel : nat) (s : string) (acc : list (string * json))
    : exn + (json * string) :=
  match fuel with
  | O => inl JSONDecodeError
  | S fuel =>
      match s with
      | String c r =>
          if Ascii.eqb c dquote then
            match scan_string r with
            | Some (k, r1) =>
                match skip_ws r1 with
                | String ":"%char r2 =>
                    match value fuel (skip_ws r2) with
                    | inr (v, r3) =>
                        match skip_ws r3 with
                        | String ","%char r4 =>
                            members fuel (skip_ws r4) (dict_set acc k v)
                        | String "}"%char r4 => inr (JDict (dict_set acc k v), r4)
                        | _ => inl JSONDecodeError
                        end
                    | inl e => inl e
                    end
                | _ => inl JSONDecodeError
                end
            | None => inl JSONDecodeError
            end
          else inl JSONDecodeError
      | EmptyString => inl JSONDecodeError
      end
  end.

Definition loads (s : string) : exn + json :=
  match value (S (String.length s)) (skip_ws s) with
  | inr (v, rest) =>
      match skip_ws rest with
      | EmptyString => inr v
      | _ => inl JSONDecodeError
      end
  | inl e => inl e
  end.

Definition hex_digit (n : N) : ascii :=
  ascii_of_N (if (n <? 10)%N then 48 + n else 87 + n)%N.

(** One character of a string literal, as [json.dumps] escapes it. *)
Definition encode_char (c : ascii) : string :=
  let n := N_of_ascii c in
  if Ascii.eqb c dquote then String "\"%char (String dquote "")
  else if Ascii.eqb c "\"%char then "\\"
  else if (n =? 10)%N then "\n"
  else if (n =? 13)%N then "\r"
  else if (n =? 9)%N then "\t"
  else if (n =? 8)%N then "\b"
  else if (n =? 12)%N then "\f"
  else if (n <? 32)%N || (126 <? n)%N then
    "\u00" +:+ String (hex_digit (n / 16)) (String (hex_digit (n mod 16)) "")
  else String c "".

Fixpoint encode_chars (s : string) : string :=
  match s with
  | EmptyString => EmptyString
  | String c r => encode_char c +:+ encode_chars r
  end.

Definition encode_str (s : string) : string :=
  String dquote (encode_chars s) +:+ String dquote "".

Fixpoint spaces (n : nat) : string :=
  match n with O => EmptyString | S n => String " "%char (spaces n) end.

Definition newline (indent level : nat) : string :=
  String "010"%char (spaces (indent * level)).

(** [json.dumps(v, indent=n)] at nesting depth [level]; a float, which
    [loads] never builds, is shown by its bit pattern. *)
Fixpoint dumps_at (indent level : nat) (v : json) : string :=
  match v with
  | JNone => "null"
  | JBool true => "true"
  | JBool false => "false"
  | JInt n => pretty n
  | JFloat bits => "float:" +:+ pretty bits
  | JStr s => encode_str s
  | JList [] => "[]"
  | JList l =>
      "[" +:+ newline indent (S level) +:+
      Str.join ("," +:+ newline indent (S level))
               (map (dumps_at indent (S level)) l) +:+
      newline indent level +:+ "]"
  | JDict [] => "{}"
  | JDict d =>
      "{" +:+ newline indent (S level) +:+
      Str.join ("," +:+ newline indent (S level))
               (map (λ kv, encode_str kv.1 +:+ ": " +:+ dumps_at indent (S level) kv.2) d) +:+
      newline indent level +:+ "}"
  end.

Definition dumps (v : json) (indent : Z) : string :=
  dumps_at (Z.to_nat indent) 0 v.

(** A platform on which [flower-supernode] is the program [prog], if any. *)
Definition platform (prog : option Program) : Externals := {|
  json_loads := loads;
  json_dumps := dumps;
  os_exec := λ argv_ _,
    if bool_decide (head argv_ = Some "flower-supernode") then prog else None;
  getpwuid_dir := Some "/root";
  getpwnam_dir := λ _, None;
  chris_plugin_info_main := λ _, Ok tt;
|}.

(** A machine with [/tmp], [/out] and [/work], the plugin started in
    [/work]. *)
Definition world0 : World :=
  mkWorld {[ "HOME" := "/root"; "PATH" := "/usr/bin" ]}
          ["work"]
          {[ ["tmp"] := Dir; ["out"] := Dir; ["work"] := Dir ]}
          ∅ [] ∅ ["app.py"] [].

Definition train_line : string :=
  "round 3 " +:+ SUMMARY_TOKEN +:+
  "{" +:+ q "kind" +:+ ": " +:+ q "train" +:+ ", " +:+ q "nodeId" +:+ ": 2}" +:+
  String "010"%char "".

(** A worker that reports one train summary and is killed by the kernel. *)
Definition crashing : Program :=
  mkProgram [train_line] ["out of memory"] (Some (40%nat, 137)) (Some (1%nat, -15)).

(** A worker that reports one train summary and ends normally. *)
Definition reporting : Program :=
  mkProgram ["starting"; train_line] [] (Some (40%nat, 0)) (Some (1%nat, -15)).

(** A worker that ends normally without a word. *)
Definition silent : Program :=
  mkProgram [] [] (Some (40%nat, 0)) (Some (1%nat, -15)).

(** Four registered children: one reaped, one that shuts down three time
    units after SIGTERM, one that ignores SIGTERM, and one that has died
    but has not been reaped. *)
Definition child_objects : gmap nat Popen :=
  {[ 1%nat := mkPopen ["a"] None None (Some 0) (Exited 0);
     2%nat := mkPopen ["b"] None None None (Running None (Some (3%nat, -15)) false);
     3%nat := mkPopen ["c"] None None None (Running None None false);
     4%nat := mkPopen ["d"] None None None (Exited 1) ]}.

Definition busy_world : World :=
  mkWorld (environ world0) (cwd world0) (fs world0) child_objects
          [1; 2; 3; 4]%nat ∅ ["app.py"] [].

(** Options that ask for the plugin description, with a node id out of
    range. *)
Definition describe_options : Namespace :=
  mkNamespace 5 3 "fedmed-pl-superlink" 13 true
    DEFAULT_SUPERLINK_PORT "0.0.0.0" DEFAULT_CLIENTAPP_PORT
    DEFAULT_METRICS_FILE (Path_str DEFAULT_STATE_DIR) false "grpc-rere".

(** Options with a node id equal to the node count. *)
Definition out_of_range_options : Namespace :=
  mkNamespace 3 3 "fedmed-pl-superlink" 13 false
    DEFAULT_SUPERLINK_PORT "0.0.0.0" DEFAULT_CLIENTAPP_PORT
    DEFAULT_METRICS_FILE (Path_str DEFAULT_STATE_DIR) false "grpc-rere".

(** The directory, the child environment and the world that
    [_prepare_environment] yields for the default options on [world0],
    once the signal handlers are installed. *)
Definition home : Path := mkPath "/" ["tmp"; "fedmed-flwr-node"; "cid-0"].

Definition child_env : gmap string string :=
  <["FLWR_HOME" := "/tmp/fedmed-flwr-node/cid-0"]> (environ world0).

Definition prepared : World :=
  set_fs (<[["tmp"; "fedmed-flwr-node"; "cid-0"] := Dir]>
            (<[["tmp"; "fedmed-flwr-node"] := Dir]> (fs world0)))
         (set_handlers ({[SIGINT]} ∪ ({[SIGTERM]} ∪ handlers world0)) world0).

(** A worker that serves until it is told to stop: it never ends by itself
    and shuts down one time unit after SIGTERM. *)
Definition obedient : Program := mkProgram ["ready"] [] None (Some (1%nat, -15)).

(** The plugin inside [proc.wait()] at the moment the worker has died, of
    the interrupt that it has received itself, and before [wait()] has
    stored the exit status. *)
Definition racing_world : World :=
  mkWorld (environ world0) (cwd world0) (fs world0)
          {[ 0%nat := mkPopen (cmd default_options) (Some ["ready"]) (Some [])
                              None (Exited (- SIGINT)) ]}
          [0%nat] ({[SIGINT]} ∪ ({[SIGTERM]} ∪ ∅)) ["app.py"] [(0%nat, Wait None)].

(** A worker that serves until it is killed: it never ends by itself and
    ignores SIGTERM. *)
Definition serving : Program := mkProgram ["ready"] [] None None.

(** A machine on which the state root of the default options is a regular
    file. *)
Definition blocked_world : World :=
  set_fs (<[["tmp"; "fedmed-flwr-node"] := File "lock"]> (fs world0)) world0.

(** A source tree in which [app.py] gives its version on the third line. *)
Definition app_py : string :=
  "import os" +:+ String "010" "" +:+
  String "010" "" +:+
  "__version__ = " +:+ String dquote "0.0.5" +:+ String dquote "" +:+ String "010" "" +:+
  "__version__ = " +:+ String dquote "9.9" +:+ String dquote "" +:+ String "010" "".

Definition source_tree : World :=
  set_fs (<[["work"; "app.py"] := File app_py]> (fs world0)) world0.


End Sample.

(** * Vocabulary of the statements *)

Definition TRANSPORT_FLAGS : list string := ["--grpc-rere"; "--grpc-adapter"; "--rest"].

(** The text after the leftmost occurrence of [tok] in [s]. *)
Fixpoint after_first (tok s : string) : option string :=
  if String.prefix tok s then Some (Str.drop (String.length tok) s)
  else
    match s with
    | EmptyString => None
    | String _ s' => after_first tok s'
    end.

(** The decoded payload of a marker line: the trimmed text after the marker
    token, when the line holds the token and the text decodes. *)
Definition decoded_payload `{Externals} (line : string) : option json :=
  after_first SUMMARY_TOKEN line ≫= λ rest,
    match json_loads (Str.strip rest) with inr v => Some v | inl _ => None end.

(** The exception of [json.loads] on the payload of [line] that the hook
    does not catch, if there is one. *)
Definition decoder_escape `{Externals} (line : string) : option exn :=
  after_first SUMMARY_TOKEN line ≫= λ rest,
    match json_loads (Str.strip rest) with
    | inl e => if is_JSONDecodeError e then None else Some e
    | inr _ => None
    end.

Definition is_dict (v : json) : bool :=
  match v with JDict _ => true | _ => false end.

(** An object whose [kind] field equals ["train"]. *)
Definition is_train (v : json) : bool :=
  match v with
  | JDict d =>
      match dict_lookup d "kind" with
      | Some (JStr k) => String.eqb k "train"
      | _ => false
      end
  | _ => false
  end.

(** The payload of the last train-summary line among [lines], or [slot]. *)
Definition last_train `{Externals} (lines : list string) (slot : option json)
    : option json :=
  foldl (λ acc raw,
           match decoded_payload (Str.rstrip raw) with
           | Some v => if is_train v then Some v else acc
           | None => acc
           end) slot lines.

(** What the stdout relay of a run leaves in the summary slot. *)
Definition captured `{Externals} (lines : list string) : option json :=
  (Thread_join (_stream_lines (Some lines) (Some _capture)) None).2.

(** The object that [subprocess.Popen] creates for [prog], with a given
    [returncode] and child state. *)
Definition spawned (options : Namespace) (prog : Program) (rc : option Z)
    (st : child_state) : Popen :=
  mkPopen (cmd options) (Some (out_lines prog)) (Some (err_lines prog)) rc st.

(** The world after one spawn, registration and [proc.wait()]. *)
Definition after_run (options : Namespace) (prog : Program) (rc : option Z)
    (st : child_state) (w : World) : World :=
  let proc := fresh (dom (procs w)) in
  mkWorld (environ w) (cwd w) (fs w)
    (<[proc := spawned options prog rc st]> (procs w))
    (CHILDREN w ++ [proc]) (handlers w) (argv w)
    (calls w ++ [(proc, Wait None)]).

(** [proc.poll() is not None] *)
Definition has_exited (p : Popen) : bool :=
  match returncode p, child p with
  | Some _, _ => true
  | None, Exited _ => true
  | None, Running _ _ _ => false
  end.

(** A running child that is gone [timeout] time units after SIGTERM. *)
Definition exits_within (timeout : nat) (p : Popen) : bool :=
  match elapse (Some timeout) (deliver SIGTERM (child p)) with
  | Exited _ => true
  | Running _ _ _ => false
  end.

(** The calls that one handle receives during the sweep. *)
Definition expected_calls (p : Popen) : list call :=
  if has_exited p then [Poll]
  else if exits_within 10 p then [Poll; Terminate; Wait (Some 10%nat)]
  else [Poll; Terminate; Wait (Some 10%nat); Kill; Wait None].

(** The object behind a handle after [_terminate_process]. *)
Definition terminated (p : Popen) : Popen :=
  match returncode p, child p with
  | Some _, _ => p
  | None, Exited s => set_returncode (Some s) p
  | None, Running _ _ _ =>
      match elapse (Some 10%nat) (deliver SIGTERM (child p)) with
      | Exited s => set_returncode (Some s) (set_child (Exited s) p)
      | Running _ _ _ =>
          set_returncode (Some (- SIGKILL)) (set_child (Exited (- SIGKILL)) p)
      end
  end.

(** The world once the calls [cs] have been made on handle [h] and have
    left the object [p] behind it. *)
Definition logged (h : nat) (cs : list call) (p : Popen) (w : World) : World :=
  set_procs (<[h := p]> (procs w)) (set_calls (calls w ++ ((h,.) <$> cs)) w).

(** The calls of [_terminate_process] on the child whose [wait()] the
    running code has interrupted. *)
Definition stuck_calls : list call :=
  [Poll; Terminate; Wait (Some 10%nat); Kill; Wait None].

(** That child when the last of these calls has begun: both signals have
    been sent, ten time units have gone by, and no exit status is stored. *)
Definition stuck (p : Popen) : Popen :=
  set_child (deliver SIGKILL (elapse (Some 10%nat) (deliver SIGTERM (child p)))) p.

(** The running code has interrupted the [wait()] of handle [h], the exit
    status of which is not stored yet. *)
Definition inside_wait_of (F : Frame) (w : World) (h : nat) : Prop :=
  F = Some h ∧ ∃ p, procs w !! h = Some p ∧ returncode p = None.

(** The running code has interrupted the [wait()] of no registered child. *)
Definition outside_wait (F : Frame) (w : World) : Prop :=
  ∀ h, h ∈ CHILDREN w → ¬ inside_wait_of F w h.

(** The world after the sweep has dealt with handle [h]. *)
Definition sweep_one (h : nat) (w : World) : World :=
  match procs w !! h with
  | Some p => logged h (expected_calls p) (terminated p) w
  | None => set_calls (calls w ++ [(h, Poll)]) w
  end.

(** The calls of a sweep over the handles [l], read off the process table
    [m] as it is before the sweep. *)
Definition sweep_calls (m : gmap nat Popen) (l : list nat) : list (nat * call) :=
  l ≫= λ h,
    match m !! h with
    | Some p => (h,.) <$> expected_calls p
    | None => [(h, Poll)]
    end.

(** [w'] differs from [w] in the file system at most. *)
Definition same_but_fs (w w' : World) : Prop :=
  environ w' = environ w ∧ cwd w' = cwd w ∧ procs w' = procs w ∧
  CHILDREN w' = CHILDREN w ∧ handlers w' = handlers w ∧ argv w' = argv w ∧
  calls w' = calls w.

(** [w'] is [w] with some directories created: nothing else has changed, no
    entry has been removed or replaced, and no file has appeared. *)
Definition dirs_added (w w' : World) : Prop :=
  same_but_fs w w' ∧
  ∀ k, fs w' !! k = fs w !! k ∨ (fs w !! k = None ∧ fs w' !! k = Some Dir).

(** Calling [os.mkdir(p)] in [w] fails because [p] is there, as a directory. *)
Definition settled (p : Path) (w : World) : Prop :=
  ∃ e, os_mkdir p w = (Raise e, w) ∧ is_OSError e = true ∧
       e ≠ FileNotFoundError ∧ Path_is_dir w p = true.

(** The world once [handle_signals] has installed the handler. *)
Definition armed (w : World) : World :=
  set_handlers ({[SIGINT]} ∪ ({[SIGTERM]} ∪ handlers w)) w.

(** The pair of node id and node count that [_plugin_main] accepts. *)
Definition valid_pair (options : Namespace) : Prop :=
  0 ≤ cid options < total_clients options.

Fixpoint has_char (x : ascii) (s : string) : bool :=
  match s with
  | EmptyString => false
  | String c s' => Ascii.eqb c x || has_char x s'
  end.

(** The outcome is the error of a failed validation: a [ValueError], of
    which [json.JSONDecodeError] is a subclass. *)
Definition raises_ValueError {A} (r : result A) : bool :=
  match r with
  | Raise (ValueError _) | Raise JSONDecodeError => true
  | _ => false
  end.

(** The outcome is a return, or an [OSError]. *)
Definition Ok_or_OSError {A} (r : result A) : Prop :=
  match r with Ok _ => True | Raise e => is_OSError e = true | Blocked => False end.

(** The last part of [p] is the name of an entry, not [..]. *)
Definition proper_leaf (p : Path) : Prop :=
  ∃ name, last (parts p) = Some name ∧ name ≠ "..".

(** The summary slot is empty or holds a train record. *)
Definition slot_ok (slot : option json) : Prop :=
  match slot with
  | None => True
  | Some v => is_train v = true
  end.

(** A line that the relay can take: it is not the end-of-stream mark, the
    decoder raises nothing but [json.JSONDecodeError] on its payload, and the
    payload, if it decodes, is an object. *)
Definition well_formed_line `{Externals} (raw : string) : Prop :=
  raw ≠ "" ∧ decoder_escape (Str.rstrip raw) = None ∧
  ∀ v, decoded_payload (Str.rstrip raw) = Some v → is_dict v = true.

(** The command line under which [emit_plugin_json] calls
    [chris_plugin_info]. *)
Definition description_argv : list string :=
  [ "chris_plugin_info"; "--dock-image"; "docker.io/fedmed/pl-supernode:0.0.5";
    "--name"; "pl-supernode"; "--public-repo";
    "https://github.com/EC528-Fall-2025/FedMed-ChRIS" ].

(** The text [s] between double quotes. *)
Definition quoted (s : string) : string := String "034" (s +:+ String "034" "").

Definition starts_with_char (x : ascii) (s : string) : bool :=
  match s with
  | String c _ => Ascii.eqb c x
  | EmptyString => false
  end.

Fixpoint ends_with_char (x : ascii) (s : string) : bool :=
  match s with
  | EmptyString => false
  | String c EmptyString => Ascii.eqb c x
  | String _ s' => ends_with_char x s'
  end.

(** A version text that the three [strip] calls of [read_version] leave as
    it is between its quotes: it holds no [=] and neither starts nor ends
    with a quote of either kind. *)
Definition plain_version (v : string) : Prop :=
  has_char "=" v = false ∧
  starts_with_char "034" v = false ∧ ends_with_char "034" v = false ∧
  starts_with_char "'" v = false ∧ ends_with_char "'" v = false.

(** * Properties *)

(** ** The command line *)

Lemma filter_transport_flags_skip (a : string) (l : list string) :
  a ∉ TRANSPORT_FLAGS →
  filter (.∈ TRANSPORT_FLAGS) (a :: l) = filter (.∈ TRANSPORT_FLAGS) l.
Proof. intros Ha. by rewrite filter_cons, decide_False. Qed.

Lemma filter_transport_flags_keep (a : string) (l : list string) :
  a ∈ TRANSPORT_FLAGS →
  filter (.∈ TRANSPORT_FLAGS) (a :: l) = a :: filter (.∈ TRANSPORT_FLAGS) l.
Proof. intros Ha. by rewrite filter_cons, decide_True. Qed.

Ltac not_a_flag :=
  unfold TRANSPORT_FLAGS; intros Hin;
  repeat (apply elem_of_cons in Hin as [Hin | Hin]; [by inversion Hin |]);
  by apply elem_of_nil in Hin.

(** C6. Whatever the transport string, the command line holds exactly one
    transport flag: [--grpc-rere] for ["grpc-rere"], [--grpc-adapter] for
    ["grpc-adapter"], [--rest] for every other string.  [_transport_flag] is
    a total function: there is no input on which it raises. *)
Theorem transport_flag_selection (options : Namespace) :
  let t := transport options in
  let expected :=
    if bool_decide (t = "grpc-rere") then "--grpc-rere"
    else if bool_decide (t = "grpc-adapter") then "--grpc-adapter"
    else "--rest" in
  _transport_flag t = [expected] ∧
  filter (.∈ TRANSPORT_FLAGS) (cmd options) = [expected].
Proof.
  intros t expected.
  assert (Hflag : _transport_flag t = [expected]).
  { unfold _transport_flag, expected.
    repeat case_decide; repeat case_bool_decide; congruence. }
  split; [done |].
  assert (Hexp : expected ∈ TRANSPORT_FLAGS).
  { unfold expected, TRANSPORT_FLAGS.
    repeat case_bool_decide; set_solver. }
  unfold cmd. fold t. rewrite Hflag. simpl.
  rewrite filter_transport_flags_skip by not_a_flag.
  rewrite filter_transport_flags_skip by not_a_flag.
  rewrite filter_transport_flags_keep by done.
  rewrite filter_transport_flags_skip by not_a_flag.
  rewrite filter_transport_flags_skip by not_a_flag.
  rewrite filter_transport_flags_skip by not_a_flag.
  rewrite filter_transport_flags_skip by not_a_flag.
  done.
Qed.

(** ** The summary extractor *)

Ltac run_monad :=
  unfold mbind, M_bind, bind, mret, M_ret, ret, raise, modify, get, lift; simpl.

Lemma split1_shape (tok s : string) :
  (∃ before rest, Str.split1 tok s = [before; rest] ∧ after_first tok s = Some rest) ∨
  (Str.split1 tok s = [s] ∧ after_first tok s = None).
Proof.
  induction s as [| c s IH]; cbn [Str.split1 after_first].
  - destruct (String.prefix tok ""); [left; by eexists _, _ | by right].
  - destruct (String.prefix tok (String c s)); [left; by eexists _, _ |].
    destruct IH as [(before & rest & -> & ->) | [-> ->]];
      [left; by eexists _, _ | by right].
Qed.

Lemma contains_after_first (tok s : string) :
  Str.contains tok s = bool_decide (is_Some (after_first tok s)).
Proof.
  induction s as [| c s IH]; cbn [Str.contains after_first].
  - by destruct (String.prefix tok "").
  - destruct (String.prefix tok (String c s)); cbn [orb]; [| done].
    by rewrite bool_decide_true.
Qed.

Lemma split1_after_first (tok s : string) :
  Str.contains tok s = bool_decide (is_Some (after_first tok s)) ∧
  Str.split1 tok s !! 1%nat = after_first tok s.
Proof.
  split; [apply contains_after_first |].
  by destruct (split1_shape tok s) as [(before & rest & -> & ->) | [-> ->]].
Qed.

(** What one call of the hook does, for every decoder. *)
Lemma capture_cases `{Externals} (line : string) (slot : option json) :
  _capture line slot =
    match decoder_escape line with
    | Some exc => (Raise exc, slot)
    | None =>
        match decoded_payload line with
        | None => (Ok tt, slot)
        | Some v =>
            if is_dict v then (Ok tt, if is_train v then Some v else slot)
            else (Raise (AttributeError
                    ("'" +:+ type_name v +:+ "' object has no attribute 'get'")), slot)
        end
    end.
Proof.
  unfold _capture, decoded_payload, decoder_escape.
  destruct (split1_after_first SUMMARY_TOKEN line) as [-> ->].
  destruct (after_first SUMMARY_TOKEN line) as [rest |]; simpl; [| done].
  destruct (json_loads (Str.strip rest)) as [exc | v];
    [by destruct (is_JSONDecodeError exc) |].
  destruct v; try done. run_monad.
  destruct (dict_lookup d "kind") as [[] |]; simpl; try done.
  by destruct (String.eqb s "train").
Qed.

(** As long as the decoder raises nothing but a decode error and every
    payload that decodes is an object, the relay leaves in the slot the
    payload of the last train-summary line. *)
Theorem stream_keeps_last_train `{Externals} (lines : list string)
    (slot : option json) :
  Forall well_formed_line lines →
  _stream_loop lines (Some _capture) slot = (Ok tt, last_train lines slot).
Proof.
  intros Hall. revert slot.
  induction Hall as [| raw lines (Hne & Hesc & Hobj) _ IH]; intros slot; [done |].
  cbn [_stream_loop]. rewrite decide_False by done.
  run_monad. rewrite capture_cases, Hesc.
  unfold last_train in *. cbn [foldl].
  destruct (decoded_payload (Str.rstrip raw)) as [v |] eqn:Hd; [| apply IH].
  rewrite (Hobj v eq_refl). apply IH.
Qed.

Lemma stream_keeps_last_train_witness :
  let P := Sample.platform None in
  let train := SUMMARY_TOKEN +:+ "{" +:+ Sample.q "kind" +:+ ":" +:+ Sample.q "train" +:+ "}" in
  let eval := SUMMARY_TOKEN +:+ "{" +:+ Sample.q "kind" +:+ ":" +:+ Sample.q "eval" +:+ "}" in
  let bad := SUMMARY_TOKEN +:+ "{oops" in
  @_stream_loop (option json) ["plain "; train; eval; bad] (Some (@_capture P)) None
  = (Ok tt, Some (JDict [("kind", JStr "train")])).
Proof.
  intros P train eval bad.
  rewrite (@stream_keeps_last_train P); [by vm_compute |].
  repeat constructor; try done; try (vm_compute; reflexivity);
    by vm_compute; intros ? [= <-].
Defined.

(** C1, at the failing input.  A marker line whose payload is valid JSON but
    not an object makes the hook raise [AttributeError]; the exception ends
    the stdout relay, and the train summary on the next line is never
    captured. *)
Theorem capture_raises_on_non_object_payload :
  let P := Sample.platform None in
  let bad := SUMMARY_TOKEN +:+ "[1]" in
  let train := SUMMARY_TOKEN +:+ "{" +:+ Sample.q "kind" +:+ ":" +:+ Sample.q "train" +:+ "}" in
  @_capture P bad None
    = (Raise (AttributeError "'list' object has no attribute 'get'"), None) ∧
  @last_train P [bad; train] None = Some (JDict [("kind", JStr "train")]) ∧
  @captured P [bad; train] = None.
Proof. by vm_compute. Qed.

(** ** The process supervisor *)

Ltac unfold_setters :=
  unfold set_fs, set_procs, set_CHILDREN, set_handlers, set_argv, set_calls,
    set_returncode, set_child in *; simpl in *.

(** One run, once the executable has been found. *)
Lemma run_supernode_spawned `{Externals} (options : Namespace)
    (env : gmap string string) (w : World) (prog : Program) :
  os_exec (cmd options) env = Some prog →
  _run_supernode options env w =
    match lifetime prog with
    | Some (_, code) =>
        (if code =? 0
         then Ok (default (fallback_metrics options) (captured (out_lines prog)))
         else Raise (RuntimeError ("flower-supernode exited with " +:+ pretty code)),
         after_run options prog (Some code) (Exited code) w)
    | None =>
        (Blocked, after_run options prog None (Running None (on_sigterm prog) false) w)
    end.
Proof.
  intros Hexec.
  unfold _run_supernode, subprocess_Popen, _register_child, proc_wait, on_proc.
  run_monad. rewrite Hexec. simpl.
  rewrite lookup_insert_eq. simpl.
  unfold Popen_wait, after_run, spawned, captured. simpl.
  destruct (lifetime prog) as [[n code] |]; simpl; unfold_setters;
    rewrite insert_insert_eq; [| done].
  destruct (code =? 0); simpl; [| done].
  by destruct (Thread_join _ _).2.
Qed.

Lemma run_supernode_not_found `{Externals} (options : Namespace)
    (env : gmap string string) (w : World) :
  os_exec (cmd options) env = None →
  _run_supernode options env w = (Raise FileNotFoundError, w).
Proof.
  intros Hexec. unfold _run_supernode, subprocess_Popen. run_monad.
  by rewrite Hexec.
Qed.

(** C2. When the child exits with a non-zero code, the run raises the
    worker-failure error ([RuntimeError]) whose message carries that code, and
    no record is returned, whatever the child wrote to its pipes. *)
Theorem worker_failure_discards_summary `{Externals} (options : Namespace)
    (env : gmap string string) (w : World) (prog : Program) (n : nat) (code : Z) :
  os_exec (cmd options) env = Some prog →
  lifetime prog = Some (n, code) →
  code ≠ 0 →
  ∃ msg w',
    _run_supernode options env w = (Raise (RuntimeError msg), w') ∧
    msg = "flower-supernode exited with " +:+ pretty code ∧
    ∀ code', msg = "flower-supernode exited with " +:+ pretty code' → code' = code.
Proof.
  intros Hexec Hlife Hcode.
  eexists _, _. rewrite (run_supernode_spawned _ _ _ _ Hexec), Hlife.
  rewrite (proj2 (Z.eqb_neq code 0) Hcode).
  split; [done |]. split; [done |].
  intros code' Heq. simpl in Heq.
  injection Heq as Heq. symmetry. by apply pretty_Z_inj.
Qed.

Lemma worker_failure_discards_summary_witness :
  let P := Sample.platform (Some Sample.crashing) in
  @captured P (out_lines Sample.crashing)
    = Some (JDict [("kind", JStr "train"); ("nodeId", JInt 2)]) ∧
  ∃ msg w',
    @_run_supernode P default_options ∅ Sample.world0 = (Raise (RuntimeError msg), w') ∧
    msg = "flower-supernode exited with 137" ∧
    ∀ code', msg = "flower-supernode exited with " +:+ pretty code' → code' = 137.
Proof.
  intros P. split; [by vm_compute |].
  apply (@worker_failure_discards_summary P default_options ∅ Sample.world0
           Sample.crashing 40 137); [by vm_compute | done | lia].
Defined.

(** C3. When the child exits with code zero, the run returns the captured
    train summary as it is, if there is one; otherwise it returns a record
    of kind ["train"] with the configured node id, an empty [metrics] mapping
    and a non-empty message.  A child that writes nothing yields that
    fallback. *)
Theorem clean_exit_returns_summary_or_fallback `{Externals} (options : Namespace)
    (env : gmap string string) (w : World) (prog : Program) (n : nat) :
  os_exec (cmd options) env = Some prog →
  lifetime prog = Some (n, 0) →
  ∃ record w',
    _run_supernode options env w = (Ok record, w') ∧
    (∀ m, captured (out_lines prog) = Some m → record = m) ∧
    (captured (out_lines prog) = None →
     ∃ message,
       message ≠ "" ∧
       record = JDict [ ("kind", JStr "train");
                        ("partition_id", JInt (cid options));
                        ("metrics", JDict []);
                        ("message", JStr message) ]) ∧
    (out_lines prog = [] → captured (out_lines prog) = None).
Proof.
  intros Hexec Hlife.
  eexists _, _. rewrite (run_supernode_spawned _ _ _ _ Hexec), Hlife. simpl.
  split; [done |]. repeat split.
  - by intros m ->.
  - intros ->. eexists. split; [| reflexivity]. done.
  - by intros ->.
Qed.

Lemma clean_exit_returns_summary_or_fallback_witness :
  let P := Sample.platform (Some Sample.silent) in
  ∃ record w',
    @_run_supernode P default_options ∅ Sample.world0 = (Ok record, w') ∧
    (∀ m, @captured P [] = Some m → record = m) ∧
    (@captured P [] = None →
     ∃ message,
       message ≠ "" ∧
       record = JDict [ ("kind", JStr "train");
                        ("partition_id", JInt 0);
                        ("metrics", JDict []);
                        ("message", JStr message) ]) ∧
    (@nil string = [] → @captured P [] = None).
Proof.
  intros P.
  apply (@clean_exit_returns_summary_or_fallback P default_options ∅ Sample.world0
           Sample.silent 40); [by vm_compute | done].
Defined.

(** ** The cleanup coordinator *)

Lemma logged_nil (h : nat) (p : Popen) (w : World) :
  procs w !! h = Some p → logged h [] p w = w.
Proof.
  intros Hp. unfold logged, set_procs, set_calls. simpl.
  rewrite app_nil_r, insert_id by done. by destruct w.
Qed.

Lemma on_proc_logged {A} (h : nat) (c : call) (m : M Popen A) (cs : list call)
    (p : Popen) (w : World) :
  on_proc h c m (logged h cs p w) = ((m p).1, logged h (cs ++ [c]) (m p).2 w).
Proof.
  unfold on_proc, logged, set_procs, set_calls. simpl.
  rewrite lookup_insert_eq. destruct (m p) as [r p']. simpl.
  by rewrite insert_insert_eq, fmap_app, app_assoc.
Qed.

Lemma main_thread_free (h : nat) : holds_lock (F := main_thread) h = false.
Proof. reflexivity. Qed.

Lemma interrupted_holds_lock (h : nat) : holds_lock (F := Some h) h = true.
Proof. unfold holds_lock, interrupted_wait. by rewrite bool_decide_true. Qed.

Lemma send_signal_running (sig : Z) (a : list string)
    (so se : option (list string)) (life term : option (nat * Z)) (s : bool) :
  Popen_send_signal false sig (mkPopen a so se None (Running life term s))
  = (Ok tt, mkPopen a so se None (deliver sig (Running life term s))).
Proof. reflexivity. Qed.

Lemma send_signal_locked (sig : Z) (a : list string)
    (so se : option (list string)) (c : child_state) :
  Popen_send_signal true sig (mkPopen a so se None c)
  = (Ok tt, mkPopen a so se None (deliver sig c)).
Proof. reflexivity. Qed.

Lemma wait_unreaped (t : option nat) (a : list string)
    (so se : option (list string)) (c : child_state) :
  Popen_wait false t (mkPopen a so se None c)
  = match elapse t c with
    | Exited s => (Ok s, mkPopen a so se (Some s) (Exited s))
    | Running l' t' s' =>
        (match t with Some n => Raise (TimeoutExpired n) | None => Blocked end,
         mkPopen a so se None (Running l' t' s'))
    end.
Proof. unfold Popen_wait. simpl. destruct (elapse t c); [by destruct t | done]. Qed.

Lemma wait_locked (t : option nat) (a : list string)
    (so se : option (list string)) (c : child_state) :
  Popen_wait true t (mkPopen a so se None c)
  = match t with
    | Some n => (Raise (TimeoutExpired n), mkPopen a so se None (elapse (Some n) c))
    | None => (Blocked, mkPopen a so se None c)
    end.
Proof. by destruct t. Qed.

Lemma terminate_process_spec (h : nat) (w : World) (p : Popen) :
  procs w !! h = Some p →
  _terminate_process h w = (Ok tt, sweep_one h w).
Proof.
  intros Hp. unfold sweep_one. rewrite Hp.
  rewrite <- (logged_nil h p w Hp) at 1.
  unfold _terminate_process, _terminate_process_with, proc_poll, proc_terminate,
    proc_wait, proc_kill, try_except, mbind, M_bind, bind.
  rewrite main_thread_free.
  rewrite on_proc_logged.
  unfold expected_calls, terminated, has_exited, exits_within.
  destruct p as [a so se [rc |] c]; [done |].
  destruct c as [life term sig | s]; [| done].
  cbn [Popen_poll returncode child fst snd app].
  rewrite on_proc_logged, send_signal_running.
  cbn [fst snd app].
  rewrite on_proc_logged, wait_unreaped.
  change (deliver SIGTERM (Running life term sig)) with (Running life term true).
  destruct (elapse (Some 10%nat) (Running life term true)) as [l' t' s' | s];
    cbn [fst snd app is_TimeoutExpired]; [| done].
  rewrite on_proc_logged, send_signal_running. cbn [fst snd app].
  rewrite on_proc_logged, wait_unreaped.
  reflexivity.
Qed.

Lemma terminate_process_dangling {F : Frame} (h : nat) (w : World) :
  procs w !! h = None →
  _terminate_process h w = (Raise ReferenceError, sweep_one h w).
Proof.
  intros Hp. unfold sweep_one. rewrite Hp.
  unfold _terminate_process, _terminate_process_with, proc_poll, on_proc,
    mbind, M_bind, bind.
  simpl. by rewrite Hp.
Qed.

(** A handle on which the running code can proceed: it has not interrupted
    the [wait()] of that handle, or the exit status is stored already. *)
Lemma terminate_process_free {F : Frame} (h : nat) (w : World) :
  ¬ inside_wait_of F w h →
  _terminate_process h w = _terminate_process (F := main_thread) h w.
Proof.
  intros Hfree.
  destruct (procs w !! h) as [p |] eqn:Hp;
    [| by rewrite !terminate_process_dangling].
  destruct (holds_lock h) eqn:Hlock.
  - assert (HF : F = Some h).
    { unfold holds_lock, interrupted_wait in Hlock. destruct F as [k |]; [| done].
      by apply bool_decide_eq_true in Hlock as ->. }
    destruct (returncode p) as [rc |] eqn:Hrc; [| destruct Hfree; split; eauto].
    unfold _terminate_process, _terminate_process_with, proc_poll, on_proc,
      mbind, M_bind, bind.
    cbn [procs set_calls]. rewrite Hp.
    unfold Popen_poll. by rewrite Hrc.
  - unfold _terminate_process, _terminate_process_with, proc_poll, proc_terminate,
      proc_wait, proc_kill.
    by rewrite Hlock, main_thread_free.
Qed.

(** The child whose [wait()] the handler has interrupted: the lock is held
    beneath the handler, and the last [wait()] never gets it. *)
Lemma terminate_process_stuck (h : nat) (w : World) (p : Popen) :
  procs w !! h = Some p → returncode p = None →
  _terminate_process (F := Some h) h w
  = (Blocked, logged h stuck_calls (stuck p) w).
Proof.
  intros Hp Hrc.
  rewrite <- (logged_nil h p w Hp) at 1.
  unfold _terminate_process, _terminate_process_with, proc_poll, proc_terminate,
    proc_wait, proc_kill, try_except, mbind, M_bind, bind.
  rewrite interrupted_holds_lock.
  destruct p as [a so se rc c]. cbn in Hrc. subst rc.
  rewrite on_proc_logged. cbn [Popen_poll returncode fst snd app].
  rewrite on_proc_logged, send_signal_locked. cbn [fst snd app].
  rewrite on_proc_logged, wait_locked. cbn [fst snd app is_TimeoutExpired].
  rewrite on_proc_logged, send_signal_locked. cbn [fst snd app].
  rewrite on_proc_logged, wait_locked. reflexivity.
Qed.

Lemma guarded_terminate (h : nat) (w : World) :
  try_except (_terminate_process h) is_Exception (λ _, ret tt) w
  = (Ok tt, sweep_one h w).
Proof.
  unfold try_except.
  destruct (procs w !! h) as [p |] eqn:Hp.
  - by rewrite (terminate_process_spec h w p Hp).
  - by rewrite (terminate_process_dangling h w Hp).
Qed.

Lemma for_each_sweep (l : list nat) (w : World) :
  for_each l (λ proc,
    try_except (_terminate_process proc) is_Exception (λ _, ret tt)) w
  = (Ok tt, foldl (flip sweep_one) w l).
Proof.
  revert w. induction l as [| h l IH]; intros w; [done |].
  cbn [for_each foldl]. unfold bind at 1. rewrite guarded_terminate. apply IH.
Qed.

(** In the frame of the main thread the sweep never raises and never
    blocks. *)
Lemma cleanup_children_spec (w : World) :
  _cleanup_children w
  = (Ok tt, set_CHILDREN [] (foldl (flip sweep_one) w (reverse (CHILDREN w)))).
Proof.
  unfold _cleanup_children, mbind, M_bind, bind, get, modify.
  by rewrite for_each_sweep.
Qed.

(** The sweep touches the process table and the call log only. *)
Lemma sweep_frame (l : list nat) (w : World) :
  let w' := foldl (flip sweep_one) w l in
  environ w' = environ w ∧ cwd w' = cwd w ∧ fs w' = fs w ∧
  CHILDREN w' = CHILDREN w ∧ handlers w' = handlers w ∧ argv w' = argv w.
Proof.
  revert w. induction l as [| h l IH]; intros w; [done |].
  cbn [foldl]. destruct (IH (flip sweep_one w h)) as (-> & -> & -> & -> & -> & ->).
  unfold flip, sweep_one. by destruct (procs w !! h).
Qed.

Lemma sweep_one_procs (h h' : nat) (w : World) :
  procs (sweep_one h w) !! h' =
    if decide (h' = h) then terminated <$> procs w !! h else procs w !! h'.
Proof.
  unfold sweep_one. destruct (procs w !! h) as [p |] eqn:Hp; simpl.
  - case_decide as Heq; [subst; by rewrite lookup_insert_eq |].
    by rewrite lookup_insert_ne.
  - case_decide; by subst.
Qed.

Lemma sweep_one_calls (h : nat) (w : World) :
  calls (sweep_one h w) = (calls w ++ sweep_calls (procs w) [h])%list.
Proof.
  unfold sweep_one, sweep_calls, logged. simpl.
  destruct (procs w !! h); simpl; by rewrite ?app_nil_r.
Qed.

Lemma sweep_calls_ext (m1 m2 : gmap nat Popen) (l : list nat) :
  (∀ h, h ∈ l → m1 !! h = m2 !! h) →
  sweep_calls m1 l = sweep_calls m2 l.
Proof.
  intros Hagree. unfold sweep_calls.
  induction l as [| h l IH]; [done |].
  rewrite !bind_cons, Hagree by set_solver.
  f_equal. apply IH. intros h' Hin. apply Hagree. set_solver.
Qed.

(** The state after a sweep over distinct handles. *)
Lemma sweep_spec (l : list nat) (w : World) :
  NoDup l →
  let w' := foldl (flip sweep_one) w l in
  calls w' = (calls w ++ sweep_calls (procs w) l)%list ∧
  ∀ h, procs w' !! h =
         if decide (h ∈ l) then terminated <$> procs w !! h else procs w !! h.
Proof.
  intros Hnd. revert w.
  induction Hnd as [| h l Hnotin Hnd IH]; intros w; cbn [foldl].
  { split; [by rewrite app_nil_r |]. intros h. by rewrite decide_False by set_solver. }
  destruct (IH (flip sweep_one w h)) as [Hcalls Hprocs]. unfold flip in *.
  split.
  - rewrite Hcalls, sweep_one_calls, <- app_assoc. f_equal.
    change (h :: l) with ([h] ++ l)%list. unfold sweep_calls at 3.
    rewrite bind_app. f_equal.
    apply sweep_calls_ext. intros h' Hin.
    rewrite sweep_one_procs, decide_False; [done |]. by intros ->.
  - intros h'. rewrite Hprocs, !sweep_one_procs.
    destruct (decide (h' = h)) as [-> | Hne].
    + destruct (decide (h ∈ l)); [done |].
      destruct (decide (h ∈ h :: l)) as [| Hout]; [done |].
      destruct Hout. apply list_elem_of_here.
    + destruct (decide (h' ∈ l)) as [Hin | Hout];
        destruct (decide (h' ∈ h :: l)) as [Hin' | Hout']; try done.
      * destruct Hout'. by apply list_elem_of_further.
      * apply elem_of_cons in Hin' as [? | ?]; done.
Qed.

Lemma terminated_returncode (p : Popen) : is_Some (returncode (terminated p)).
Proof.
  unfold terminated.
  destruct p as [a so se [rc |] [life term sig | s]]; cbn -[elapse]; eauto.
  destruct (elapse (Some 10%nat) _); simpl; eauto.
Qed.

Lemma terminated_exited (p : Popen) :
  has_exited p = true →
  expected_calls p = [Poll] ∧ child (terminated p) = child p.
Proof.
  unfold expected_calls, terminated, has_exited.
  by destruct p as [a so se [rc |] [life term sig | s]].
Qed.

Lemma terminated_has_exited (p : Popen) : has_exited (terminated p) = true.
Proof.
  unfold has_exited.
  by destruct (terminated_returncode p) as [rc ->].
Qed.

(** Where a sweep over any handles leaves the process table. *)
Lemma sweep_procs (l : list nat) (w : World) (h : nat) :
  let w' := foldl (flip sweep_one) w l in
  match procs w !! h with
  | None => procs w' !! h = None
  | Some p =>
      ∃ p', procs w' !! h = Some p' ∧ (h ∉ l → p' = p) ∧
            (h ∈ l → has_exited p' = true)
  end.
Proof.
  revert w. induction l as [| x l IH]; intros w; cbn [foldl].
  { destruct (procs w !! h) as [p |]; [| done].
    exists p. split; [done |]. split; [done |]. by intros ?%elem_of_nil. }
  specialize (IH (flip sweep_one w x)). unfold flip in *.
  rewrite sweep_one_procs in IH.
  destruct (decide (h = x)) as [-> | Hne].
  - destruct (procs w !! x) as [p |]; cbn in IH; [| done].
    destruct IH as (p' & Hp' & Hout & Hin). exists p'. split; [done |].
    split; [intros Hnot; destruct Hnot; apply list_elem_of_here |].
    intros _. destruct (decide (x ∈ l)) as [Hx | Hx]; [by apply Hin |].
    rewrite (Hout Hx). apply terminated_has_exited.
  - destruct (procs w !! h) as [p |]; [| done].
    destruct IH as (p' & Hp' & Hout & Hin). exists p'. split; [done |].
    split.
    + intros Hnot. apply Hout. intros Hl. apply Hnot. by apply list_elem_of_further.
    + intros [? | Hl]%elem_of_cons; [done |]. by apply Hin.
Qed.

Lemma for_each_app {S A} (l1 l2 : list A) (body : A → M S unit) (s : S) :
  for_each (l1 ++ l2) body s = bind (for_each l1 body) (λ _, for_each l2 body) s.
Proof.
  revert s. induction l1 as [| x l1 IH]; intros s; [done |].
  cbn [app for_each]. unfold bind.
  destruct (body x s) as [[[] | e |] s']; [| done | done].
  rewrite IH. reflexivity.
Qed.

Lemma main_thread_outside_wait (w : World) : outside_wait main_thread w.
Proof. by intros h _ [HF _]. Qed.

Lemma sweep_one_keeps_free (F : Frame) (x h : nat) (w : World) :
  ¬ inside_wait_of F w h → ¬ inside_wait_of F (sweep_one x w) h.
Proof.
  intros Hfree (HF & p' & Hp' & Hrc). rewrite sweep_one_procs in Hp'.
  destruct (decide (h = x)) as [-> | Hne].
  - destruct (procs w !! x) as [p |] eqn:Hp; [| done].
    cbn in Hp'. injection Hp' as <-.
    destruct (terminated_returncode p) as [rc Hsome]. congruence.
  - apply Hfree. split; [done |]. eauto.
Qed.

Lemma for_each_sweep_free {F : Frame} (l : list nat) (w : World) :
  (∀ h, h ∈ l → ¬ inside_wait_of F w h) →
  for_each l (λ proc,
    try_except (_terminate_process proc) is_Exception (λ _, ret tt)) w
  = (Ok tt, foldl (flip sweep_one) w l).
Proof.
  revert w. induction l as [| h l IH]; intros w Hfree; [done |].
  cbn [for_each foldl]. unfold bind at 1.
  assert (Hh : try_except (_terminate_process h) is_Exception (λ _, ret tt) w
               = (Ok tt, sweep_one h w)).
  { rewrite <- guarded_terminate. unfold try_except.
    by rewrite terminate_process_free by apply Hfree, list_elem_of_here. }
  rewrite Hh. apply IH. intros h' Hin.
  apply sweep_one_keeps_free, Hfree, list_elem_of_further, Hin.
Qed.

(** Outside the interrupted [wait()] of a registered child, the sweep is the
    one of the main thread. *)
Lemma cleanup_children_free {F : Frame} (w : World) :
  outside_wait F w →
  _cleanup_children w
  = (Ok tt, set_CHILDREN [] (foldl (flip sweep_one) w (reverse (CHILDREN w)))).
Proof.
  intros Hfree. unfold _cleanup_children, mbind, M_bind, bind, get, modify.
  rewrite for_each_sweep_free; [done |].
  intros h Hin. apply Hfree. by apply elem_of_reverse.
Qed.

(** On top of the interrupted [wait()] of a registered child the sweep gets
    as far as that child and no further. *)
Lemma cleanup_children_stuck (h : nat) (w : World) (p : Popen) :
  h ∈ CHILDREN w → procs w !! h = Some p → returncode p = None →
  ∃ l1 l2, reverse (CHILDREN w) = (l1 ++ h :: l2)%list ∧ (h ∉ l1) ∧
    _cleanup_children (F := Some h) w
    = (Blocked, logged h stuck_calls (stuck p) (foldl (flip sweep_one) w l1)).
Proof.
  intros Hin Hp Hrc.
  destruct (list_elem_of_split_l (reverse (CHILDREN w)) h)
    as (l1 & l2 & Hsplit & Hout); [by apply elem_of_reverse |].
  exists l1, l2. split; [done |]. split; [done |].
  unfold _cleanup_children, mbind, M_bind, bind, get. rewrite Hsplit.
  rewrite for_each_app. unfold bind.
  rewrite for_each_sweep_free.
  2: { intros x Hx [HF _]. injection HF as ->. done. }
  cbn [for_each]. unfold bind, try_except.
  rewrite (terminate_process_stuck h _ p); [done | | done].
  pose proof (sweep_procs l1 w h) as Hsw. cbv zeta in Hsw. rewrite Hp in Hsw.
  destruct Hsw as (p' & Hp' & Hsame & _). by rewrite Hp', (Hsame Hout).
Qed.

(** C4, at the failing input.  A termination signal reaches the plugin
    while [_run_supernode] waits for a worker that shuts down one time unit
    after SIGTERM.  The sweep of the handler runs on top of the interrupted
    [proc.wait()]: [poll()] answers that nothing is known, the worker is
    asked to terminate, [wait(10)] raises [TimeoutExpired] although the
    worker has gone within the ten time units, the worker is killed all the
    same, and the last [wait()] never returns.  The registry is not cleared,
    no exit status is stored, and the handler never gets to its
    [SystemExit]. *)
Theorem sweep_inside_interrupted_wait :
  let P := Sample.platform (Some Sample.obedient) in
  let proc := fresh (dom (procs Sample.world0)) in
  let run := @_run_supernode P default_options ∅ Sample.world0 in
  let sweep := _cleanup_children (F := Some proc) run.2 in
  run.1 = Blocked ∧
  CHILDREN run.2 = [proc] ∧
  (exits_within 10 <$> procs run.2 !! proc) = Some true ∧
  sweep.1 = Blocked ∧
  calls sweep.2 =
    [ (proc, Wait None);
      (proc, Poll); (proc, Terminate); (proc, Wait (Some 10%nat)); (proc, Kill);
      (proc, Wait None) ] ∧
  CHILDREN sweep.2 = [proc] ∧
  (returncode <$> procs sweep.2 !! proc) = Some None ∧
  _handle (F := Some proc) SIGTERM run.2 = (Blocked, sweep.2).
Proof. cbv zeta. split_and!; vm_compute; reflexivity. Qed.

(** C5, at the failing input.  The worker has died, by the interrupt that
    the terminal has sent to it as well, and the handler runs before the
    interrupted [proc.wait()] has stored the exit status.  In the main
    thread [_terminate_process] on this handle is one [poll()]; in the
    handler [poll()] answers that nothing is known, so the guard does not
    hold the request back: both signals are sent to the dead child and the
    last [wait()] never returns. *)
Theorem termination_request_inside_interrupted_wait :
  let w := Sample.racing_world in
  let request := _terminate_process (F := Some 0%nat) 0 w in
  (has_exited <$> procs w !! 0%nat) = Some true ∧
  (_terminate_process (F := main_thread) 0 w).1 = Ok tt ∧
  calls (_terminate_process (F := main_thread) 0 w).2
    = [(0%nat, Wait None); (0%nat, Poll)] ∧
  request.1 = Blocked ∧
  calls request.2 =
    [ (0, Wait None);
      (0, Poll); (0, Terminate); (0, Wait (Some 10)); (0, Kill); (0, Wait None) ]%nat ∧
  _cleanup_children (F := Some 0%nat) w = (Blocked, request.2) ∧
  CHILDREN request.2 = [0%nat].
Proof. cbv zeta. split_and!; vm_compute; reflexivity. Qed.

(** ** The file system *)

Lemma stat_insert_ne (f : gmap (list string) node) (k k' : list string) (n : node) :
  k' ≠ k → stat (<[k := n]> f) k' = stat f k'.
Proof. intros Hne. destruct k'; [done |]. simpl. by rewrite lookup_insert_ne. Qed.

Lemma stat_insert_eq (f : gmap (list string) node) (k : list string) (n : node) :
  k ≠ [] → stat (<[k := n]> f) k = Some n.
Proof. intros Hne. destruct k; [done |]. simpl. by rewrite lookup_insert_eq. Qed.

Lemma stat_dir_ne (f : gmap (list string) node) (k k' : list string) :
  stat f k ≠ Some Dir → stat f k' = Some Dir → k' ≠ k.
Proof. by intros Hk Hk' ->. Qed.

(** A successful walk enters directories only, so it is not disturbed by
    a change at a place that is not a directory. *)
Lemma walk_insert (f : gmap (list string) node) (k : list string) (n : node)
    (names cur d : list string) :
  stat f k ≠ Some Dir →
  walk f cur names = Ok d →
  walk (<[k := n]> f) cur names = Ok d.
Proof.
  intros Hk. revert cur.
  induction names as [| c rest IH]; intros cur; [done |].
  cbn [walk]. set (next := if decide (c = "..") then _ else _).
  destruct (stat f next) as [[| content] |] eqn:Hnext; try done.
  intros Hwalk. rewrite stat_insert_ne, Hnext by by eapply stat_dir_ne.
  by apply IH.
Qed.

Lemma resolve_parent_insert (w : World) (p : Path) (k : list string) (n : node)
    (r : list string * option string) :
  stat (fs w) k ≠ Some Dir →
  resolve_parent w p = Ok r →
  resolve_parent (set_fs (<[k := n]> (fs w)) w) p = Ok r.
Proof.
  intros Hk. unfold resolve_parent. cbn [fs cwd set_fs].
  destruct (decide (root p = "")).
  - destruct (stat (fs w) (cwd w)) as [[| content] |] eqn:Hcwd; try done.
    rewrite stat_insert_ne, Hcwd by by eapply stat_dir_ne.
    destruct (split_last (parts p)) as [[dirs name] |]; [| done].
    destruct (walk (fs w) (cwd w) dirs) as [d | |] eqn:Hwalk; try done.
    by rewrite (walk_insert _ _ _ _ _ _ Hk Hwalk).
  - destruct (split_last (parts p)) as [[dirs name] |]; [| done].
    destruct (walk (fs w) [] dirs) as [d | |] eqn:Hwalk; try done.
    by rewrite (walk_insert _ _ _ _ _ _ Hk Hwalk).
Qed.

Lemma is_dir_insert (w : World) (p : Path) (k : list string) (n : node) :
  stat (fs w) k ≠ Some Dir →
  Path_is_dir w p = true →
  Path_is_dir (set_fs (<[k := n]> (fs w)) w) p = true.
Proof.
  intros Hk. unfold Path_is_dir, locate.
  destruct (resolve_parent w p) as [[d last] | |] eqn:Hres; try done.
  rewrite (resolve_parent_insert _ _ _ _ _ Hk Hres). cbn [fs set_fs].
  destruct last as [name |].
  - set (key := if decide (name = "..") then _ else _).
    destruct (stat (fs w) key) as [[| content] |] eqn:Hkey; try done.
    by rewrite stat_insert_ne, Hkey by by eapply stat_dir_ne.
  - destruct (stat (fs w) d) as [[| content] |] eqn:Hkey; try done.
    by rewrite stat_insert_ne, Hkey by by eapply stat_dir_ne.
Qed.

Lemma walk_result (f : gmap (list string) node) (cur names : list string) :
  (∃ d, walk f cur names = Ok d) ∨
  walk f cur names = Raise FileNotFoundError ∨
  walk f cur names = Raise NotADirectoryError.
Proof.
  revert cur. induction names as [| c rest IH]; intros cur; cbn [walk]; [eauto |].
  destruct (stat f _) as [[| content] |]; eauto.
Qed.

Lemma resolve_parent_result (w : World) (p : Path) :
  (∃ r, resolve_parent w p = Ok r) ∨
  resolve_parent w p = Raise FileNotFoundError ∨
  resolve_parent w p = Raise NotADirectoryError.
Proof.
  unfold resolve_parent.
  destruct (decide (root p = "")) as [_ | _];
    [destruct (stat (fs w) (cwd w)) as [[| content] |]; eauto |];
    (destruct (split_last (parts p)) as [[dirs name] |]; [| eauto]).
  - destruct (walk_result (fs w) (cwd w) dirs) as [[d ->] | [-> | ->]]; eauto.
  - destruct (walk_result (fs w) [] dirs) as [[d ->] | [-> | ->]]; eauto.
Qed.

(** The outcomes of [os.mkdir]. *)
Lemma os_mkdir_cases (p : Path) (w : World) :
  (∃ d name, resolve_parent w p = Ok (d, Some name) ∧ name ≠ ".." ∧
     stat (fs w) (d ++ [name])%list = None ∧
     os_mkdir p w = (Ok tt, set_fs (<[(d ++ [name])%list := Dir]> (fs w)) w)) ∨
  (∃ e, os_mkdir p w = (Raise e, w) ∧ is_OSError e = true).
Proof.
  unfold os_mkdir, mbind, M_bind, bind, get, lift, raise, modify.
  destruct (resolve_parent_result w p) as [[[d [name |]] ->] | [-> | ->]].
  - destruct (decide (name = "..")); [right; by eexists |].
    destruct (stat (fs w) (d ++ [name])) eqn:Hstat; [right; by eexists |].
    left. by exists d, name.
  - right. by eexists.
  - right. by eexists.
  - right. by eexists.
Qed.

Lemma os_mkdir_settles (p : Path) (w w' : World) :
  os_mkdir p w = (Ok tt, w') → settled p w'.
Proof.
  intros Hmk.
  destruct (os_mkdir_cases p w) as [(d & name & Hres & Hname & Hstat & Heq) | (e & Heq & _)];
    rewrite Heq in Hmk; [| done].
  injection Hmk as <-.
  assert (Hk : stat (fs w) (d ++ [name]) ≠ Some Dir) by by rewrite Hstat.
  pose proof (resolve_parent_insert w p _ Dir _ Hk Hres) as Hres'.
  exists FileExistsError. repeat split; [| done |].
  - unfold os_mkdir, mbind, M_bind, bind, get, lift, raise. rewrite Hres'.
    rewrite decide_False by done. cbn [fs set_fs].
    rewrite stat_insert_eq; [done |]. by destruct d.
  - unfold Path_is_dir, locate. rewrite Hres'.
    rewrite decide_False by done. cbn [fs set_fs].
    rewrite stat_insert_eq; [done |]. by destruct d.
Qed.

Lemma same_but_fs_refl (w : World) : same_but_fs w w.
Proof. by repeat split. Qed.

Lemma same_but_fs_trans (w1 w2 w3 : World) :
  same_but_fs w1 w2 → same_but_fs w2 w3 → same_but_fs w1 w3.
Proof.
  unfold same_but_fs. intros (? & ? & ? & ? & ? & ? & ?) (? & ? & ? & ? & ? & ? & ?).
  repeat split; congruence.
Qed.

Lemma dirs_added_refl (w : World) : dirs_added w w.
Proof. split; [apply same_but_fs_refl | by left]. Qed.

Lemma dirs_added_trans (w1 w2 w3 : World) :
  dirs_added w1 w2 → dirs_added w2 w3 → dirs_added w1 w3.
Proof.
  intros [Hs12 Hf12] [Hs23 Hf23]. split; [by eapply same_but_fs_trans |].
  intros k. destruct (Hf12 k) as [H12 | [H12 H12']], (Hf23 k) as [H23 | [H23 H23']].
  - left. congruence.
  - right. split; congruence.
  - right. split; congruence.
  - congruence.
Qed.

Lemma os_mkdir_dirs_added (p : Path) (w w' : World) (r : result unit) :
  os_mkdir p w = (r, w') → dirs_added w w'.
Proof.
  intros Hmk.
  destruct (os_mkdir_cases p w) as [(d & name & Hres & Hname & Hstat & Heq) | (e & Heq & _)];
    rewrite Heq in Hmk; injection Hmk as <- <-; [| apply dirs_added_refl].
  split; [by repeat split |].
  intros k. cbn [fs set_fs].
  destruct (decide (k = d ++ [name])%list) as [-> | Hne].
  - right. rewrite lookup_insert_eq. split; [| done].
    destruct d; exact Hstat.
  - left. by rewrite lookup_insert_ne.
Qed.

(** [Path.mkdir(parents=False, exist_ok=...)] in terms of [os.mkdir]. *)
Lemma mkdir_here_cases (p : Path) (exist_ok : bool) (w : World) :
  (∃ w', os_mkdir p w = (Ok tt, w') ∧ Path_mkdir_here p exist_ok w = (Ok tt, w')) ∨
  (∃ e, os_mkdir p w = (Raise e, w) ∧ is_OSError e = true ∧
        Path_mkdir_here p exist_ok w =
          (if is_FileNotFoundError e || negb exist_ok
              || negb (Path_is_dir w p)
           then Raise e else Ok tt, w)).
Proof.
  unfold Path_mkdir_here, try_except.
  destruct (os_mkdir_cases p w) as [(d & name & _ & _ & _ & Heq) | (e & Heq & He)];
    rewrite Heq; [left; by eexists |].
  right. exists e. split; [done |]. split; [done |]. rewrite He.
  unfold mbind, M_bind, bind, get, raise, ret.
  destruct e; try done; cbn; by destruct exist_ok, (Path_is_dir w p).
Qed.

Lemma mkdir_here_settles (p : Path) (w w' : World) :
  Path_mkdir_here p true w = (Ok tt, w') → settled p w'.
Proof.
  intros Hmk.
  destruct (mkdir_here_cases p true w) as [(w1 & Hos & Heq) | (e & Hos & He & Heq)];
    rewrite Heq in Hmk.
  - injection Hmk as <-. by eapply os_mkdir_settles.
  - destruct (is_FileNotFoundError e) eqn:Hfnf; [done |]. cbn in Hmk.
    destruct (Path_is_dir w p) eqn:Hdir; [| done].
    injection Hmk as <-. exists e. repeat split; try done. by intros ->.
Qed.

Lemma settled_mkdir_here (p : Path) (w : World) :
  settled p w → Path_mkdir_here p true w = (Ok tt, w).
Proof.
  intros (e & Hos & He & Hfnf & Hdir).
  destruct (mkdir_here_cases p true w) as [(w1 & Hos' & _) | (e' & Hos' & _ & ->)];
    rewrite Hos in Hos'; [done |].
  injection Hos' as <-. rewrite Hdir. by destruct e.
Qed.

Lemma mkdir_here_dirs_added (p : Path) (exist_ok : bool) (w w' : World)
    (r : result unit) :
  Path_mkdir_here p exist_ok w = (r, w') → dirs_added w w'.
Proof.
  intros Hmk.
  destruct (mkdir_here_cases p exist_ok w) as [(w1 & Hos & Heq) | (e & Hos & He & Heq)];
    rewrite Heq in Hmk; injection Hmk as <- <-.
  - by eapply os_mkdir_dirs_added.
  - apply dirs_added_refl.
Qed.

(** One unfolding of [Path.mkdir]. *)
Lemma mkdir_rev_unfold (rt : string) (rparts : list string)
    (parents exist_ok : bool) (w : World) :
  let self := mkPath rt (reverse rparts) in
  (∃ w', os_mkdir self w = (Ok tt, w') ∧
         Path_mkdir_rev rt rparts parents exist_ok w = (Ok tt, w')) ∨
  (∃ e, os_mkdir self w = (Raise e, w) ∧ is_OSError e = true ∧
        Path_mkdir_rev rt rparts parents exist_ok w =
          if is_FileNotFoundError e then
            match rparts with
            | [] => (Raise e, w)
            | _ :: rparent =>
                if negb parents then (Raise e, w)
                else
                  match Path_mkdir_rev rt rparent true true w with
                  | (Ok _, w1) => Path_mkdir_here self exist_ok w1
                  | (Raise e1, w1) => (Raise e1, w1)
                  | (Blocked, w1) => (Blocked, w1)
                  end
            end
          else (if negb exist_ok || negb (Path_is_dir w self)
                then Raise e else Ok tt, w)).
Proof.
  intros self.
  destruct (os_mkdir_cases self w) as [(d & name & _ & _ & _ & Heq) | (e & Heq & He)].
  - left. eexists. split; [done |].
    destruct rparts; cbn [Path_mkdir_rev]; unfold try_except; fold self; by rewrite Heq.
  - right. exists e. split; [done |]. split; [done |].
    destruct rparts as [| x rparent]; cbn [Path_mkdir_rev]; unfold try_except;
      fold self; rewrite Heq, He;
      unfold mbind, M_bind, bind, get, raise, ret;
      destruct e; try done; cbn;
      try (by destruct exist_ok, (Path_is_dir w self));
      destruct parents; cbn; try done;
      by destruct (Path_mkdir_rev rt rparent true true w) as [[[] | |] w1].
Qed.

Lemma mkdir_rev_settles (rt : string) (rparts : list string) (parents : bool)
    (w w' : World) :
  Path_mkdir_rev rt rparts parents true w = (Ok tt, w') →
  settled (mkPath rt (reverse rparts)) w'.
Proof.
  intros Hmk.
  destruct (mkdir_rev_unfold rt rparts parents true w)
    as [(w1 & Hos & Heq) | (e & Hos & He & Heq)]; rewrite Heq in Hmk.
  - injection Hmk as <-. by eapply os_mkdir_settles.
  - destruct (is_FileNotFoundError e) eqn:Hfnf.
    + destruct rparts as [| x rparent]; [done |].
      destruct parents; [| done]. cbn in Hmk.
      destruct (Path_mkdir_rev rt rparent true true w) as [[[] | |] w1]; try done.
      by eapply mkdir_here_settles.
    + cbn in Hmk. destruct (Path_is_dir w _) eqn:Hdir; [| done].
      injection Hmk as <-. exists e. repeat split; try done. by intros ->.
Qed.

Lemma settled_mkdir_rev (rt : string) (rparts : list string) (parents : bool)
    (w : World) :
  settled (mkPath rt (reverse rparts)) w →
  Path_mkdir_rev rt rparts parents true w = (Ok tt, w).
Proof.
  intros (e & Hos & He & Hfnf & Hdir).
  destruct (mkdir_rev_unfold rt rparts parents true w)
    as [(w1 & Hos' & _) | (e' & Hos' & _ & ->)]; rewrite Hos in Hos'; [done |].
  injection Hos' as <-. rewrite Hdir. by destruct e.
Qed.

Lemma mkdir_rev_dirs_added (rt : string) (rparts : list string)
    (parents exist_ok : bool) (w w' : World) (r : result unit) :
  Path_mkdir_rev rt rparts parents exist_ok w = (r, w') → dirs_added w w'.
Proof.
  revert parents exist_ok w w' r.
  induction rparts as [| x rparent IH]; intros parents exist_ok w w' r Hmk;
    [destruct (mkdir_rev_unfold rt [] parents exist_ok w)
      as [(w1 & Hos & Heq) | (e & Hos & He & Heq)]
    |destruct (mkdir_rev_unfold rt (x :: rparent) parents exist_ok w)
      as [(w1 & Hos & Heq) | (e & Hos & He & Heq)]]; rewrite Heq in Hmk.
  - injection Hmk as <- <-. by eapply os_mkdir_dirs_added.
  - destruct (is_FileNotFoundError e); injection Hmk as <- <-; apply dirs_added_refl.
  - injection Hmk as <- <-. by eapply os_mkdir_dirs_added.
  - destruct (is_FileNotFoundError e).
    + destruct parents; cbn in Hmk; [| injection Hmk as <- <-; apply dirs_added_refl].
      destruct (Path_mkdir_rev rt rparent true true w) as [r1 w1] eqn:Hrec.
      apply IH in Hrec.
      destruct r1 as [[] | e1 |].
      * eapply dirs_added_trans; [done |]. by eapply mkdir_here_dirs_added.
      * by injection Hmk as <- <-.
      * by injection Hmk as <- <-.
    + injection Hmk as <- <-. apply dirs_added_refl.
Qed.

Lemma Path_mkdir_self (p : Path) : mkPath (root p) (reverse (reverse (parts p))) = p.
Proof. rewrite reverse_involutive. by destruct p. Qed.

(** [mkdir(parents=True, exist_ok=True)] that has succeeded once succeeds
    again, and then changes nothing. *)
Lemma Path_mkdir_idempotent (p : Path) (w w' : World) :
  Path_mkdir p true true w = (Ok tt, w') →
  Path_mkdir p true true w' = (Ok tt, w') ∧ Path_is_dir w' p = true ∧
  dirs_added w w'.
Proof.
  unfold Path_mkdir. intros Hmk.
  pose proof (mkdir_rev_settles _ _ _ _ _ Hmk) as Hset.
  split; [by apply settled_mkdir_rev |].
  split; [| by eapply mkdir_rev_dirs_added].
  rewrite Path_mkdir_self in Hset. by destruct Hset as (e & _ & _ & _ & Hdir).
Qed.

Lemma Path_mkdir_dirs_added (p : Path) (parents exist_ok : bool) (w w' : World)
    (r : result unit) :
  Path_mkdir p parents exist_ok w = (r, w') → dirs_added w w'.
Proof. apply mkdir_rev_dirs_added. Qed.

(** [expanduser] reads the environment and changes nothing. *)
Lemma expanduser_frame `{Externals} (p : Path) (w w' : World) :
  environ w' = environ w →
  ∃ r, Path_expanduser p w = (r, w) ∧ Path_expanduser p w' = (r, w').
Proof.
  intros Henv. unfold Path_expanduser.
  destruct (parts p) as [| first rest]; [by eexists |].
  destruct (bool_decide (root p = "") && String.prefix "~" first); [| by eexists].
  unfold mbind, M_bind, bind, get, raise, ret. rewrite Henv.
  destruct (String.prefix "~" _); by eexists.
Qed.

(** ** The environment builder *)

(** C8. A call of [_prepare_environment] that has succeeded can be repeated:
    the second call succeeds, returns the same directory and the same
    environment, and changes nothing.  The environment returned is the
    ambient one with [FLWR_HOME] set to the directory; the ambient environment
    itself is left as it is. *)
Theorem environment_builder_idempotent `{Externals} (state_root : string)
    (cid : Z) (w w1 : World) (env : gmap string string) (home : Path) :
  _prepare_environment state_root cid w = (Ok (env, home), w1) →
  _prepare_environment state_root cid w1 = (Ok (env, home), w1) ∧
  env = <["FLWR_HOME" := Path_str home]> (environ w) ∧
  env !! "FLWR_HOME" = Some (Path_str home) ∧
  (∀ k, k ≠ "FLWR_HOME" → env !! k = environ w !! k) ∧
  environ w1 = environ w ∧
  Path_is_dir w1 home = true.
Proof.
  unfold _prepare_environment, mbind, M_bind, bind, get, ret.
  intros Hrun.
  destruct (expanduser_frame (Path_of state_root) w w eq_refl) as (r & Hexp & _).
  rewrite Hexp in Hrun. destruct r as [h | e |]; try done.
  destruct (Path_mkdir _ true true w) as [[[] | e |] w'] eqn:Hmk; try done.
  injection Hrun as <- <- <-.
  destruct (Path_mkdir_idempotent _ _ _ Hmk) as (Hagain & Hdir & [Hsame _]).
  destruct Hsame as (Henv & _).
  destruct (expanduser_frame (Path_of state_root) w w' Henv) as (r & Hexp1 & Hexp2).
  rewrite Hexp in Hexp1. injection Hexp1 as <-.
  rewrite Hexp2, Hagain, Henv.
  repeat split; try done.
  - by rewrite lookup_insert_eq.
  - intros k Hk. by rewrite lookup_insert_ne.
Qed.

Lemma environment_builder_idempotent_witness :
  let P := Sample.platform None in
  let home := mkPath "/" ["tmp"; "fedmed-flwr-node"; "cid-0"] in
  let env := <["FLWR_HOME" := "/tmp/fedmed-flwr-node/cid-0"]> (environ Sample.world0) in
  let w1 := set_fs (<[["tmp"; "fedmed-flwr-node"; "cid-0"] := Dir]>
                      (<[["tmp"; "fedmed-flwr-node"] := Dir]> (fs Sample.world0)))
                   Sample.world0 in
  @_prepare_environment P "/tmp/fedmed-flwr-node" 0 Sample.world0 = (Ok (env, home), w1) ∧
  @_prepare_environment P "/tmp/fedmed-flwr-node" 0 w1 = (Ok (env, home), w1) ∧
  env !! "PATH" = Some "/usr/bin" ∧
  Path_is_dir w1 home = true.
Proof.
  intros P home env w1.
  assert (Hfirst : @_prepare_environment P "/tmp/fedmed-flwr-node" 0 Sample.world0
                   = (Ok (env, home), w1)) by by vm_compute.
  split; [exact Hfirst |].
  destruct (@environment_builder_idempotent P _ _ _ _ _ _ Hfirst)
    as (Hsecond & _ & _ & Hother & _ & Hdir).
  split; [exact Hsecond |]. split; [| exact Hdir].
  by rewrite Hother.
Defined.

(** ** The plugin entry point *)

Lemma handle_signals_spec (w : World) : handle_signals w = (Ok tt, armed w).
Proof. reflexivity. Qed.

Lemma mkdir_here_outcome (p : Path) (exist_ok : bool) (w w' : World)
    (r : result unit) :
  Path_mkdir_here p exist_ok w = (r, w') → Ok_or_OSError r.
Proof.
  intros Hmk.
  destruct (mkdir_here_cases p exist_ok w) as [(w1 & _ & Heq) | (e & _ & He & Heq)];
    rewrite Heq in Hmk; injection Hmk as <- <-; [done |].
  by destruct (_ || _).
Qed.

Lemma mkdir_rev_outcome (rt : string) (rparts : list string)
    (parents exist_ok : bool) (w w' : World) (r : result unit) :
  Path_mkdir_rev rt rparts parents exist_ok w = (r, w') → Ok_or_OSError r.
Proof.
  revert parents exist_ok w w' r.
  induction rparts as [| x rparent IH]; intros parents exist_ok w w' r Hmk;
    [destruct (mkdir_rev_unfold rt [] parents exist_ok w)
      as [(w1 & Hos & Heq) | (e & Hos & He & Heq)]
    |destruct (mkdir_rev_unfold rt (x :: rparent) parents exist_ok w)
      as [(w1 & Hos & Heq) | (e & Hos & He & Heq)]]; rewrite Heq in Hmk.
  - by injection Hmk as <- <-.
  - destruct (is_FileNotFoundError e); injection Hmk as <- <-; [done |].
    by destruct (_ || _).
  - by injection Hmk as <- <-.
  - destruct (is_FileNotFoundError e).
    + destruct parents; cbn in Hmk; [| by injection Hmk as <- <-].
      destruct (Path_mkdir_rev rt rparent true true w) as [r1 w1] eqn:Hrec.
      apply IH in Hrec.
      destruct r1 as [[] | e1 |]; [| by injection Hmk as <- <- | done].
      by eapply mkdir_here_outcome.
    + injection Hmk as <- <-. by destruct (_ || _).
Qed.

Lemma write_text_cases (p : Path) (data : string) (w : World) :
  (∃ k, stat (fs w) k ≠ Some Dir ∧
        Path_write_text p data w = (Ok tt, set_fs (<[k := File data]> (fs w)) w)) ∨
  (∃ e, Path_write_text p data w = (Raise e, w) ∧ is_OSError e = true).
Proof.
  unfold Path_write_text, mbind, M_bind, bind, get, lift, raise, modify.
  destruct (resolve_parent_result w p) as [[[d [name |]] ->] | [-> | ->]];
    try (right; by eexists).
  destruct (decide (name = "..")); [right; by eexists |].
  destruct (stat (fs w) (d ++ [name])) as [[| content] |] eqn:Hstat;
    [right; by eexists | left | left]; eexists; split; try done; by rewrite Hstat.
Qed.

Lemma locate_result (w : World) (p : Path) :
  (∃ k, locate w p = Ok k) ∨ (∃ e, locate w p = Raise e ∧ is_OSError e = true).
Proof.
  unfold locate.
  destruct (resolve_parent_result w p) as [[[d [name |]] ->] | [-> | ->]]; eauto.
Qed.

(** [rmtree(ignore_errors=True)] always returns. *)
Lemma rmtree_cases (p : Path) (w : World) :
  (∃ k, locate w p = Ok k ∧ stat (fs w) k = Some Dir ∧
        shutil_rmtree p true w =
          (Ok tt, set_fs (filter (λ kv, ¬ k `prefix_of` kv.1 ∨
                                        (kv.1 = k ∧ (parts p = [] ∨ last (parts p) = Some "..")))
                                 (fs w)) w)) ∨
  ((∀ k, locate w p = Ok k → stat (fs w) k ≠ Some Dir) ∧
   shutil_rmtree p true w = (Ok tt, w)).
Proof.
  unfold shutil_rmtree, try_except, mbind, M_bind, bind, get, lift, raise, modify, ret.
  destruct (locate_result w p) as [[k ->] | (e & -> & He)].
  - destruct (stat (fs w) k) as [[| content] |] eqn:Hstat.
    + left. by exists k.
    + right. split; [| done]. intros k' [= <-]. by rewrite Hstat.
    + right. split; [| done]. intros k' [= <-]. by rewrite Hstat.
  - right. rewrite He. by split.
Qed.

Lemma pretty_N_go_no_slash (x : N) (s : string) :
  has_char "/" s = false → has_char "/" (pretty_N_go x s) = false.
Proof.
  revert s. induction (N.lt_wf_0 x) as [x _ IH]; intros s Hs.
  destruct (decide (x = 0)%N) as [-> | Hx]; [by rewrite pretty_N_go_0 |].
  rewrite pretty_N_go_step by lia.
  apply IH; [apply N.div_lt; lia |].
  cbn [has_char]. rewrite Hs.
  unfold pretty_N_char. by repeat case_match.
Qed.

Lemma pretty_Z_no_slash (n : Z) : has_char "/" (pretty n) = false.
Proof.
  assert (Hpos : ∀ p : positive, has_char "/" (pretty (N.pos p)) = false).
  { intros p. unfold pretty, pretty_N. rewrite decide_False by done.
    by apply pretty_N_go_no_slash. }
  destruct n as [| p | p]; [done | apply Hpos |].
  change (pretty (Z.neg p)) with ("-" +:+ pretty (N.pos p)). cbn. apply Hpos.
Qed.

Lemma split_char_no_sep (sep : ascii) (s : string) :
  has_char sep s = false → Str.split_char sep s = [s].
Proof.
  induction s as [| c s IH]; [done |]. cbn.
  destruct (Ascii.eqb c sep); [done |]. cbn. intros Hs. by rewrite IH.
Qed.

Lemma Path_of_name (s : string) :
  has_char "/" s = false → s ≠ "" → s ≠ "." → Path_of s = mkPath "" [s].
Proof.
  intros Hs Hne Hdot. unfold Path_of.
  assert (Hstrip : Str.lstrip_char "/" s = s).
  { destruct s as [| c s]; [done |]. cbn in *. by destruct (Ascii.eqb c "/"). }
  rewrite Hstrip, Nat.sub_diag, split_char_no_sep by done. cbn [Nat.eqb].
  by rewrite filter_cons, decide_True.
Qed.

Lemma cid_directory (home : Path) (cid : Z) :
  let name := "cid-" +:+ pretty cid in
  Path_div home name = mkPath (root home) (parts home ++ [name]) ∧
  proper_leaf (Path_div home name).
Proof.
  intros name.
  assert (Hdiv : Path_div home name = mkPath (root home) (parts home ++ [name])).
  { unfold Path_div. rewrite (Path_of_name name); [done | | done | done].
    cbn. apply pretty_Z_no_slash. }
  split; [done |]. rewrite Hdiv. exists name. cbn [parts].
  by rewrite last_snoc.
Qed.

Lemma locate_ext (w w' : World) (p : Path) :
  fs w' = fs w → cwd w' = cwd w → locate w' p = locate w p.
Proof. intros Hfs Hcwd. unfold locate, resolve_parent. by rewrite Hfs, Hcwd. Qed.

Lemma is_dir_ext (w w' : World) (p : Path) :
  fs w' = fs w → cwd w' = cwd w → Path_is_dir w' p = Path_is_dir w p.
Proof.
  intros Hfs Hcwd. unfold Path_is_dir. by rewrite (locate_ext w w'), Hfs.
Qed.

Lemma write_text_ext (w w' : World) (p : Path) (data : string) :
  fs w' = fs w → cwd w' = cwd w →
  (Path_write_text p data w').1 = (Path_write_text p data w).1 ∧
  fs (Path_write_text p data w').2 = fs (Path_write_text p data w).2.
Proof.
  intros Hfs Hcwd.
  unfold Path_write_text, mbind, M_bind, bind, get, lift, raise, modify.
  assert (Hres : resolve_parent w' p = resolve_parent w p).
  { unfold resolve_parent. by rewrite Hfs, Hcwd. }
  rewrite Hres, Hfs.
  destruct (resolve_parent w p) as [[d [name |]] | |]; try done.
  destruct (decide (name = "..")); [done |].
  by destruct (stat (fs w) (d ++ [name])) as [[| content] |].
Qed.

(** What [_prepare_environment] guarantees, whatever its outcome. *)
Lemma prepare_environment_outcome `{Externals} (state_root : string) (cid : Z)
    (w w1 : World) (r : result (gmap string string * Path)) :
  _prepare_environment state_root cid w = (r, w1) →
  dirs_added w w1 ∧ raises_ValueError r = false ∧
  ∀ env home, r = Ok (env, home) →
    Path_is_dir w1 home = true ∧ proper_leaf home.
Proof.
  unfold _prepare_environment, mbind, M_bind, bind, get, ret.
  intros Hrun.
  assert (Hexp : ∃ r0, Path_expanduser (Path_of state_root) w = (r0, w) ∧
                       raises_ValueError r0 = false).
  { unfold Path_expanduser.
    destruct (parts (Path_of state_root)) as [| first rest]; [by eexists |].
    destruct (bool_decide _ && String.prefix "~" first); [| by eexists].
    unfold mbind, M_bind, bind, get, raise, ret.
    destruct (String.prefix "~" _); by eexists. }
  destruct Hexp as (r0 & Hexp & Hr0). rewrite Hexp in Hrun.
  destruct r0 as [h | e |];
    [| injection Hrun as <- <-; by split; [apply dirs_added_refl |]
     | injection Hrun as <- <-; by split; [apply dirs_added_refl |]].
  destruct (Path_mkdir _ true true w) as [r1 w'] eqn:Hmk.
  pose proof (Path_mkdir_dirs_added _ _ _ _ _ _ Hmk) as Hadded.
  pose proof (mkdir_rev_outcome _ _ _ _ _ _ _ Hmk) as Hout.
  destruct r1 as [[] | e |]; [| | done].
  - injection Hrun as <- <-. split; [done |]. split; [done |].
    intros env home [= <- <-].
    split; [by destruct (Path_mkdir_idempotent _ _ _ Hmk) as (_ & ? & _) |].
    apply cid_directory.
  - injection Hrun as <- <-. split; [done |]. split; [by destruct e |]. done.
Qed.

(** One supervised run followed by the cleanup of the [finally] block. *)
Lemma supervised_run `{Externals} (options : Namespace) (env : gmap string string)
    (w w2 : World) (r : result json) :
  _run_supernode options env w = (r, w2) →
  raises_ValueError r = false ∧
  fs w2 = fs w ∧ cwd w2 = cwd w ∧
  ∃ w3,
    try_finally (_run_supernode options env) _cleanup_children w = (r, w3) ∧
    fs w3 = fs w ∧ cwd w3 = cwd w ∧
    (r ≠ Blocked → w3 = (_cleanup_children w2).2 ∧ CHILDREN w3 = []).
Proof.
  intros Hrun.
  assert (Hframe : raises_ValueError r = false ∧ fs w2 = fs w ∧ cwd w2 = cwd w).
  { destruct (os_exec (cmd options) env) as [prog |] eqn:Hexec.
    - rewrite (run_supernode_spawned _ _ _ _ Hexec) in Hrun.
      destruct (lifetime prog) as [[n code] |]; injection Hrun as <- <-; [| done].
      by destruct (code =? 0).
    - rewrite (run_supernode_not_found _ _ _ Hexec) in Hrun.
      by injection Hrun as <- <-. }
  destruct Hframe as (Hve & Hfs & Hcwd). repeat (split; [done |]).
  unfold try_finally. rewrite Hrun, cleanup_children_spec. cbn [snd].
  destruct (sweep_frame (reverse (CHILDREN w2)) w2) as (_ & Hcwd' & Hfs' & _).
  destruct r as [summary | e |]; eexists; (split; [done |]); cbn [fs cwd set_CHILDREN];
    (split; [congruence |]); (split; [congruence |]); done.
Qed.

Lemma plugin_main_json `{Externals} (options : Namespace) (inputdir outputdir : Path)
    (w : World) :
  json_flag options = true →
  _plugin_main options inputdir outputdir w = emit_plugin_json (armed w).
Proof. intros Hjson. unfold _plugin_main. by rewrite Hjson. Qed.

Lemma plugin_main_invalid `{Externals} (options : Namespace)
    (inputdir outputdir : Path) (w : World) :
  json_flag options = false → ¬ valid_pair options →
  ∃ msg, _plugin_main options inputdir outputdir w = (Raise (ValueError msg), armed w).
Proof.
  intros Hjson Hbad. unfold _plugin_main, valid_pair in *. rewrite Hjson.
  unfold mbind, M_bind, bind. rewrite handle_signals_spec.
  destruct (total_clients options <=? 0) eqn:Htot; [by eexists |].
  destruct ((cid options <? 0) || (cid options >=? total_clients options)) eqn:Hcid;
    [by eexists |].
  apply orb_false_elim in Hcid as [Hlo Hhi]. rewrite Z.geb_leb in Hhi. lia.
Qed.

Lemma plugin_main_valid `{Externals} (options : Namespace)
    (inputdir outputdir : Path) (w : World) :
  json_flag options = false → valid_pair options →
  _plugin_main options inputdir outputdir w =
    match _prepare_environment (state_dir options) (cid options) (armed w) with
    | (Ok (env, flwr_home), w1) =>
        match try_finally (_run_supernode options env) _cleanup_children w1 with
        | (Ok summary, w2) =>
            match Path_write_text (Path_div outputdir (metrics_file options))
                                  (json_dumps summary 2) w2 with
            | (Ok _, w3) =>
                if keep_state options then (Ok tt, w3)
                else shutil_rmtree flwr_home true w3
            | (Raise e, w3) => (Raise e, w3)
            | (Blocked, w3) => (Blocked, w3)
            end
        | (Raise e, w2) => (Raise e, w2)
        | (Blocked, w2) => (Blocked, w2)
        end
    | (Raise e, w1) => (Raise e, w1)
    | (Blocked, w1) => (Blocked, w1)
    end.
Proof.
  intros Hjson Hok. unfold _plugin_main, valid_pair in *. rewrite Hjson.
  unfold mbind, M_bind, bind. rewrite handle_signals_spec.
  rewrite (proj2 (Z.leb_gt _ _)) by lia.
  rewrite (proj2 (Z.ltb_ge _ _)) by lia.
  rewrite Z.geb_leb, (proj2 (Z.leb_gt _ _)) by lia. cbn [orb].
  destruct (_prepare_environment _ _ _) as [[[env home] | e |] w1]; try done.
  destruct (try_finally _ _ w1) as [[summary | e |] w2]; try done.
  destruct (Path_write_text _ _ w2) as [[[] | e |] w3]; try done.
  by destruct (keep_state options).
Qed.

(** C7, as stated, fails when the description of the plugin is asked for:
    [_plugin_main] then returns before it looks at the node id. *)
Lemma validation_skipped_for_description :
  let P := Sample.platform None in
  ¬ valid_pair Sample.describe_options ∧
  ¬ ∃ msg w',
      @_plugin_main P Sample.describe_options (Path_of "/in") (Path_of "/out")
        Sample.world0 = (Raise (ValueError msg), w').
Proof.
  intros P. split.
  - unfold valid_pair. cbn. lia.
  - intros (msg & w' & Hrun). rewrite plugin_main_json in Hrun by done.
    by vm_compute in Hrun.
Qed.

(** C7, amended.  Unless the description of the plugin is asked for: for a
    node id within [0, total) the node configuration is built and
    [_plugin_main] does not fail with the validation error; for any other
    pair it raises [ValueError] with nothing spawned and nothing created. *)
Theorem configuration_validation `{Externals} (options : Namespace)
    (inputdir outputdir : Path) (w : World) :
  json_flag options = false →
  (valid_pair options →
     _build_node_config options
       = NodeConfig.mk (cid options) (total_clients options) (data_seed options) ∧
     raises_ValueError (_plugin_main options inputdir outputdir w).1 = false) ∧
  (¬ valid_pair options →
     ∃ msg w',
       _plugin_main options inputdir outputdir w = (Raise (ValueError msg), w') ∧
       fs w' = fs w ∧ procs w' = procs w ∧ CHILDREN w' = CHILDREN w ∧
       calls w' = calls w).
Proof.
  intros Hjson. split.
  - intros Hok. split; [done |].
    rewrite plugin_main_valid by done.
    destruct (_prepare_environment _ _ _) as [r1 w1] eqn:Hprep.
    destruct (prepare_environment_outcome _ _ _ _ _ Hprep) as (_ & Hve1 & _).
    destruct r1 as [[env home] | e |]; [| done | done].
    destruct (_run_supernode options env w1) as [r2 w2] eqn:Hrun.
    destruct (supervised_run _ _ _ _ _ Hrun) as (Hve2 & _ & _ & w3 & -> & _).
    destruct r2 as [summary | e |]; [| done | done].
    destruct (write_text_cases (Path_div outputdir (metrics_file options))
                (json_dumps summary 2) w3) as [(k & _ & ->) | (e & -> & He)];
      [| by destruct e].
    destruct (keep_state options); [done |].
    by destruct (rmtree_cases home (set_fs (<[k := File (json_dumps summary 2)]> (fs w3)) w3))
      as [(k' & _ & _ & ->) | [_ ->]].
  - intros Hbad.
    destruct (plugin_main_invalid options inputdir outputdir w Hjson Hbad) as [msg ->].
    by exists msg, (armed w).
Qed.

Lemma configuration_validation_witness :
  let P := Sample.platform None in
  json_flag Sample.out_of_range_options = false ∧
  ¬ valid_pair Sample.out_of_range_options ∧
  ∃ msg w',
    @_plugin_main P Sample.out_of_range_options (Path_of "/in") (Path_of "/out")
      Sample.world0 = (Raise (ValueError msg), w') ∧
    fs w' = fs Sample.world0 ∧ procs w' = ∅ ∧ CHILDREN w' = [] ∧ calls w' = [].
Proof.
  intros P.
  assert (Hbad : ¬ valid_pair Sample.out_of_range_options).
  { unfold valid_pair. cbn. lia. }
  split; [reflexivity |]. split; [exact Hbad |].
  exact (proj2 (@configuration_validation P Sample.out_of_range_options
                  (Path_of "/in") (Path_of "/out") Sample.world0 eq_refl) Hbad).
Defined.

(** C9. When the supervised run raises, [_plugin_main] raises the same
    error after the cleanup and writes no result file: the file system is
    the one that [_prepare_environment] left, whose files are those that
    were there when the plugin started. *)
Theorem no_result_file_on_failure `{Externals} (options : Namespace)
    (inputdir outputdir : Path) (w w1 w2 : World) (env : gmap string string)
    (home : Path) (e : exn) :
  json_flag options = false →
  valid_pair options →
  _prepare_environment (state_dir options) (cid options) (armed w)
    = (Ok (env, home), w1) →
  _run_supernode options env w1 = (Raise e, w2) →
  ∃ w3,
    _plugin_main options inputdir outputdir w = (Raise e, w3) ∧
    fs w3 = fs w1 ∧
    (∀ k content, fs w3 !! k = Some (File content) ↔ fs w !! k = Some (File content)) ∧
    CHILDREN w3 = [].
Proof.
  intros Hjson Hok Hprep Hrun.
  rewrite plugin_main_valid, Hprep by done.
  destruct (prepare_environment_outcome _ _ _ _ _ Hprep) as ([_ Hfiles] & _).
  destruct (supervised_run _ _ _ _ _ Hrun) as (_ & _ & _ & w3 & -> & Hfs & _ & Hreg).
  exists w3. split; [done |]. split; [done |].
  split; [| by apply Hreg].
  intros k content. rewrite Hfs.
  destruct (Hfiles k) as [-> | [Hnone Hdir]]; [done |].
  cbn in Hnone. rewrite Hdir, Hnone. by split.
Qed.

Lemma no_result_file_on_failure_witness :
  let P := Sample.platform (Some Sample.crashing) in
  ∃ w3,
    @_plugin_main P default_options (Path_of "/in") (Path_of "/out") Sample.world0
      = (Raise (RuntimeError "flower-supernode exited with 137"), w3) ∧
    fs w3 = fs Sample.prepared ∧
    (∀ k content, fs w3 !! k = Some (File content)
                  ↔ fs Sample.world0 !! k = Some (File content)) ∧
    CHILDREN w3 = [].
Proof.
  intros P.
  assert (Hprep : @_prepare_environment P (state_dir default_options)
                    (cid default_options) (armed Sample.world0)
                  = (Ok (Sample.child_env, Sample.home), Sample.prepared)).
  { vm_compute. reflexivity. }
  assert (Hrun : @_run_supernode P default_options Sample.child_env Sample.prepared
                 = (Raise (RuntimeError "flower-supernode exited with 137"),
                    after_run default_options Sample.crashing (Some 137) (Exited 137)
                      Sample.prepared)).
  { vm_compute. reflexivity. }
  assert (Hok : valid_pair default_options).
  { unfold valid_pair, default_options, DEFAULT_TOTAL_CLIENTS. cbn. lia. }
  exact (@no_result_file_on_failure P default_options (Path_of "/in") (Path_of "/out")
           Sample.world0 _ _ _ _ _ eq_refl Hok Hprep Hrun).
Defined.

(** C10. After a run that has returned a record and after the result file
    has been written, [_plugin_main] removes the per-node directory with all
    that it holds, and nothing else, unless [keep_state] is set; with
    [keep_state] set the world is left as it was once the file was written.
    The directory is still there, as a directory, when the file has been
    written; the removal cannot raise. *)
Theorem state_directory_teardown `{Externals} (options : Namespace)
    (inputdir outputdir : Path) (w w1 w2 w3 : World) (env : gmap string string)
    (home : Path) (summary : json) :
  json_flag options = false →
  valid_pair options →
  _prepare_environment (state_dir options) (cid options) (armed w)
    = (Ok (env, home), w1) →
  _run_supernode options env w1 = (Ok summary, w2) →
  Path_write_text (Path_div outputdir (metrics_file options)) (json_dumps summary 2)
    (_cleanup_children w2).2 = (Ok tt, w3) →
  ∃ w' key,
    _plugin_main options inputdir outputdir w = (Ok tt, w') ∧
    (∃ result_key, fs w3 !! result_key = Some (File (json_dumps summary 2))) ∧
    locate w3 home = Ok key ∧ stat (fs w3) key = Some Dir ∧
    (keep_state options = true → w' = w3) ∧
    (keep_state options = false →
       shutil_rmtree home true w3 = (Ok tt, w') ∧
       (∀ k, key `prefix_of` k → fs w' !! k = None) ∧
       (∀ k, ¬ key `prefix_of` k → fs w' !! k = fs w3 !! k)).
Proof.
  intros Hjson Hok Hprep Hrun Hwrite.
  rewrite plugin_main_valid, Hprep by done.
  destruct (prepare_environment_outcome _ _ _ _ _ Hprep) as (_ & _ & Hhome).
  destruct (Hhome env home eq_refl) as [Hdir1 (name & Hlast & Hname)].
  destruct (supervised_run _ _ _ _ _ Hrun)
    as (_ & _ & _ & w2' & -> & Hfs & Hcwd & Hswept).
  destruct Hswept as [-> _]; [done |].
  rewrite Hwrite.
  assert (Hdir2 : Path_is_dir (_cleanup_children w2).2 home = true).
  { by rewrite (is_dir_ext w1). }
  destruct (write_text_cases (Path_div outputdir (metrics_file options))
              (json_dumps summary 2) (_cleanup_children w2).2)
    as [(rk & Hrk & Heq) | (e & Heq & _)]; rewrite Heq in Hwrite; [| done].
  injection Hwrite as <-.
  pose proof (is_dir_insert _ home rk (File (json_dumps summary 2)) Hrk Hdir2) as Hdir3.
  set (w3 := set_fs _ _) in *.
  assert (Hfile : ∃ result_key, fs w3 !! result_key = Some (File (json_dumps summary 2))).
  { exists rk. unfold w3. cbn [fs set_fs]. by rewrite lookup_insert_eq. }
  destruct (rmtree_cases home w3) as [(key & Hloc & Hstat & Hrm) | [Hno _]].
  2: { unfold Path_is_dir in Hdir3.
       destruct (locate w3 home) as [k | |] eqn:Hloc; try done.
       specialize (Hno k eq_refl). by destruct (stat (fs w3) k) as [[] |]. }
  destruct (keep_state options) eqn:Hkeep.
  - exists w3, key. by repeat split.
  - exists (shutil_rmtree home true w3).2, key.
    rewrite Hrm. cbn [snd fs set_fs].
    repeat split; try done.
    + intros k Hpre. apply map_lookup_filter_None_2.
      destruct (fs w3 !! k) as [n |] eqn:Hk; [right | by left].
      intros x [= <-]. cbn. intros [Hnot | [_ [Hparts | Hdots]]]; [done | |].
      * by rewrite Hparts in Hlast.
      * rewrite Hlast in Hdots. by injection Hdots as ->.
    + intros k Hpre.
      destruct (fs w3 !! k) as [n |] eqn:Hk.
      * apply map_lookup_filter_Some_2; [done |]. by left.
      * apply map_lookup_filter_None_2. by left.
Qed.

Lemma state_directory_teardown_witness :
  let P := Sample.platform (Some Sample.reporting) in
  ∃ w',
    @_plugin_main P default_options (Path_of "/in") (Path_of "/out") Sample.world0
      = (Ok tt, w') ∧
    fs w' !! ["tmp"; "fedmed-flwr-node"; "cid-0"] = None ∧
    fs w' !! ["tmp"; "fedmed-flwr-node"] = Some Dir ∧
    is_Some (fs w' !! ["out"; "client_metrics.json"]).
Proof.
  intros P.
  pose (summary := JDict [("kind", JStr "train"); ("nodeId", JInt 2)]).
  pose (w2 := after_run default_options Sample.reporting (Some 0) (Exited 0)
                Sample.prepared).
  pose (written := Path_write_text (Path_div (Path_of "/out") (metrics_file default_options))
                     (@json_dumps P summary 2) (_cleanup_children w2).2).
  assert (Hprep : @_prepare_environment P (state_dir default_options)
                    (cid default_options) (armed Sample.world0)
                  = (Ok (Sample.child_env, Sample.home), Sample.prepared)).
  { vm_compute. reflexivity. }
  assert (Hrun : @_run_supernode P default_options Sample.child_env Sample.prepared
                 = (Ok summary, w2)).
  { vm_compute. reflexivity. }
  assert (Hwrite : written = (Ok tt, written.2)).
  { vm_compute. reflexivity. }
  assert (Hok : valid_pair default_options).
  { unfold valid_pair, default_options, DEFAULT_TOTAL_CLIENTS. cbn. lia. }
  destruct (@state_directory_teardown P default_options (Path_of "/in") (Path_of "/out")
              Sample.world0 _ _ _ _ _ _ eq_refl Hok Hprep Hrun Hwrite)
    as (w' & key & Hmain & _ & Hloc & _ & _ & Hgone).
  destruct (Hgone eq_refl) as (_ & Hbelow & Hother).
  assert (Hkey : key = ["tmp"; "fedmed-flwr-node"; "cid-0"]).
  { vm_compute in Hloc. by injection Hloc as <-. }
  subst key. exists w'. split; [exact Hmain |]. split; [by apply Hbelow |].
  split.
  - rewrite Hother; [vm_compute; reflexivity |].
    intros Hpre. apply prefix_length in Hpre. cbn in Hpre. lia.
  - rewrite Hother; [vm_compute; eauto |].
    intros [rest Hpre]. discriminate Hpre.
Defined.

(** * Further properties *)

(** ** The sweep and the signal handler *)

(** A sweep over the registry leaves every registered child exited. *)
Lemma sweep_reaps_registered (w : World) (h : nat) (p : Popen) :
  h ∈ CHILDREN w → procs w !! h = Some p →
  ∃ p', procs (foldl (flip sweep_one) w (reverse (CHILDREN w))) !! h = Some p' ∧
        has_exited p' = true.
Proof.
  intros Hin Hp.
  pose proof (sweep_procs (reverse (CHILDREN w)) w h) as Hsw. cbn in Hsw.
  rewrite Hp in Hsw. destruct Hsw as (p' & Hp' & _ & Hex).
  exists p'. split; [done |]. apply Hex. by apply elem_of_reverse.
Qed.

Lemma outside_or_inside (F : Frame) (w : World) :
  outside_wait F w ∨ ∃ h, h ∈ CHILDREN w ∧ inside_wait_of F w h.
Proof.
  destruct F as [k |]; [| left; apply main_thread_outside_wait].
  destruct (decide (k ∈ CHILDREN w)) as [Hin | Hout].
  - destruct (procs w !! k) as [p |] eqn:Hp.
    + destruct (returncode p) as [rc |] eqn:Hrc.
      * left. intros h _ (HF & p' & Hp' & Hrc'). injection HF as <-. congruence.
      * right. exists k. split; [done |]. split; [done |]. eauto.
    + left. intros h _ (HF & p' & Hp' & _). injection HF as <-. congruence.
  - left. intros h Hin (HF & _). injection HF as <-. done.
Qed.

Lemma stuck_child (p : Popen) :
  returncode (stuck p) = returncode p ∧ ∃ s, child (stuck p) = Exited s.
Proof.
  split; [done |]. unfold stuck. cbn [child set_child].
  destruct (elapse (Some 10%nat) (deliver SIGTERM (child p))) as [l t sig | s];
    cbn; eauto.
Qed.

(** X1. When the running code has not interrupted the [wait()] of a
    registered child whose exit status is still to be stored, which is so
    in the main thread, the sweep returns: the registry is empty, every
    registered child has exited, the objects of other handles are as before,
    and nothing but the process table, the call log and the registry has
    changed.  On top of such an interrupted [wait()] the sweep never returns
    and the registry is left as it is. *)
Theorem sweep_returns_outside_interrupted_wait (F : Frame) (w : World) :
  (outside_wait F w →
   ∃ w',
     _cleanup_children (F := F) w = (Ok tt, w') ∧
     CHILDREN w' = [] ∧
     (∀ h p, h ∈ CHILDREN w → procs w !! h = Some p →
        ∃ p', procs w' !! h = Some p' ∧ has_exited p' = true) ∧
     (∀ h, h ∉ CHILDREN w → procs w' !! h = procs w !! h) ∧
     environ w' = environ w ∧ cwd w' = cwd w ∧ fs w' = fs w ∧
     handlers w' = handlers w ∧ argv w' = argv w) ∧
  (∀ h, h ∈ CHILDREN w → inside_wait_of F w h →
   ∃ w', _cleanup_children (F := F) w = (Blocked, w') ∧ CHILDREN w' = CHILDREN w).
Proof.
  split.
  - intros Hfree. eexists. split; [by apply cleanup_children_free |].
    destruct (sweep_frame (reverse (CHILDREN w)) w)
      as (Henv & Hcwd & Hfs & _ & Hh & Ha).
    cbn [CHILDREN environ cwd fs handlers argv procs set_CHILDREN].
    split; [done |]. split; [apply sweep_reaps_registered |]. split; [| done].
    intros h Hout.
    pose proof (sweep_procs (reverse (CHILDREN w)) w h) as Hsw. cbn in Hsw.
    destruct (procs w !! h) as [p |]; [| done].
    destruct Hsw as (p' & -> & Heq & _). f_equal. apply Heq.
    by rewrite elem_of_reverse.
  - intros h Hin (-> & p & Hp & Hrc).
    destruct (cleanup_children_stuck h w p Hin Hp Hrc) as (l1 & l2 & _ & _ & Hrun).
    eexists. split; [exact Hrun |].
    destruct (sweep_frame l1 w) as (_ & _ & _ & Hreg & _). exact Hreg.
Qed.

Lemma sweep_returns_outside_interrupted_wait_witness :
  ∃ w',
    _cleanup_children (F := main_thread) Sample.busy_world = (Ok tt, w') ∧
    CHILDREN w' = [].
Proof.
  destruct (sweep_returns_outside_interrupted_wait main_thread Sample.busy_world)
    as [Hreturns _].
  destruct Hreturns as (w' & Hrun & Hreg & _); [| by exists w'].
  intros h _ [HF _]. discriminate HF.
Defined.



Lemma fresh_handle_unused (w : World) : procs w !! fresh (dom (procs w)) = None.
Proof. apply not_elem_of_dom. apply is_fresh. Qed.

(** X3. A run without a signal sends no signal: starting from an empty
    registry, the run and the cleanup that follows it make two calls on the
    new child, the wait for its exit and one poll.  The child gets a handle
    that was not in use, it has been reaped with its own exit status, and
    the registry is empty again, whether the run returns or raises. *)
Theorem supervised_run_sends_no_signal `{Externals} (options : Namespace)
    (env : gmap string string) (w : World) (prog : Program) (n : nat) (code : Z) :
  os_exec (cmd options) env = Some prog →
  lifetime prog = Some (n, code) →
  CHILDREN w = [] →
  let proc := fresh (dom (procs w)) in
  ∃ r w3,
    try_finally (_run_supernode options env) _cleanup_children w = (r, w3) ∧
    r ≠ Blocked ∧
    procs w !! proc = None ∧
    procs w3 !! proc = Some (spawned options prog (Some code) (Exited code)) ∧
    calls w3 = (calls w ++ [(proc, Wait None); (proc, Poll)])%list ∧
    CHILDREN w3 = [].
Proof.
  intros Hexec Hlife Hreg proc.
  pose proof (run_supernode_spawned options env w prog Hexec) as Hrun.
  rewrite Hlife in Hrun.
  unfold try_finally. rewrite Hrun, cleanup_children_spec.
  set (w2 := after_run options prog (Some code) (Exited code) w).
  assert (Hsweep : foldl (flip sweep_one) w2 (reverse (CHILDREN w2))
                   = logged proc [Poll] (spawned options prog (Some code) (Exited code)) w2).
  { unfold w2, after_run. cbn [CHILDREN]. rewrite Hreg. cbn [app reverse foldl flip].
    change (reverse [fresh (dom (procs w))]) with [proc]. cbn [foldl flip].
    unfold sweep_one. cbn [procs]. fold proc. by rewrite lookup_insert_eq. }
  rewrite Hsweep.
  assert (Hcalls : calls (logged proc [Poll] (spawned options prog (Some code) (Exited code)) w2)
                   = (calls w ++ [(proc, Wait None); (proc, Poll)])%list).
  { unfold logged, w2, after_run. cbn. by rewrite <- app_assoc. }
  assert (Hobj : procs (logged proc [Poll] (spawned options prog (Some code) (Exited code)) w2)
                   !! proc = Some (spawned options prog (Some code) (Exited code))).
  { unfold logged. cbn. by rewrite lookup_insert_eq. }
  destruct (code =? 0); eexists _, _; (split; [reflexivity |]);
    cbn [procs calls CHILDREN set_CHILDREN];
    (split; [done |]); (split; [apply fresh_handle_unused |]);
    (split; [exact Hobj |]); (split; [exact Hcalls | done]).
Qed.

Lemma supervised_run_sends_no_signal_witness :
  let P := Sample.platform (Some Sample.crashing) in
  ∃ r w3,
    try_finally (@_run_supernode P default_options ∅) _cleanup_children Sample.world0
      = (r, w3) ∧
    r ≠ Blocked ∧
    calls w3 = [(fresh (dom (procs Sample.world0)), Wait None);
                (fresh (dom (procs Sample.world0)), Poll)] ∧
    CHILDREN w3 = [].
Proof.
  intros P.
  destruct (@supervised_run_sends_no_signal P default_options ∅ Sample.world0
              Sample.crashing 40 137)
    as (r & w3 & Hrun & Hr & _ & _ & Hcalls & Hreg);
    [vm_compute; reflexivity | reflexivity | reflexivity |].
  by exists r, w3.
Defined.

(** X4. A worker that never exits by itself: the run never returns (there
    is no timeout on the wait), so the [finally] block is not reached and
    the child stays registered and running.  The handler of a signal that
    arrives then runs on top of the interrupted [proc.wait()]: it sends the
    child SIGTERM, finds the ten time units used up, sends SIGKILL, and
    never returns from the last [wait()].  No [SystemExit] is raised, the
    registry is not cleared, and the child is dead with its exit status
    never stored, whether it obeys SIGTERM or not. *)
Theorem signal_during_the_wait_never_exits `{Externals} (options : Namespace)
    (env : gmap string string) (w : World) (prog : Program) (signum : Z) :
  os_exec (cmd options) env = Some prog →
  lifetime prog = None →
  let proc := fresh (dom (procs w)) in
  ∃ w2,
    try_finally (_run_supernode options env) (_cleanup_children (F := main_thread)) w
      = (Blocked, w2) ∧
    proc ∈ CHILDREN w2 ∧
    (∃ p, procs w2 !! proc = Some p ∧ has_exited p = false) ∧
    ∃ w3,
      _handle (F := Some proc) signum w2 = (Blocked, w3) ∧
      CHILDREN w3 = CHILDREN w2 ∧
      calls w3 = (calls w2 ++ ((proc,.) <$> stuck_calls))%list ∧
      ∃ p' s, procs w3 !! proc = Some p' ∧ returncode p' = None ∧
              child p' = Exited s.
Proof.
  intros Hexec Hlife proc.
  pose proof (run_supernode_spawned options env w prog Hexec) as Hrun.
  rewrite Hlife in Hrun.
  set (w2 := after_run options prog None (Running None (on_sigterm prog) false) w) in *.
  assert (Hin : proc ∈ CHILDREN w2).
  { unfold w2, after_run. cbn [CHILDREN]. apply elem_of_app. right.
    apply list_elem_of_here. }
  assert (Hobj : procs w2 !! proc
                 = Some (spawned options prog None (Running None (on_sigterm prog) false))).
  { unfold w2, after_run. cbn [procs]. fold proc. by rewrite lookup_insert_eq. }
  assert (Hrev : reverse (CHILDREN w2) = proc :: reverse (CHILDREN w)).
  { unfold w2, after_run. cbn [CHILDREN]. by rewrite reverse_app. }
  clearbody w2.
  exists w2. split; [unfold try_finally; by rewrite Hrun |].
  split; [done |]. split; [by eexists |].
  eexists. split.
  { unfold _handle, _cleanup_children, mbind, M_bind, bind, get, raise.
    rewrite Hrev. cbn [for_each]. unfold bind, try_except.
    by rewrite (terminate_process_stuck proc w2 _ Hobj). }
  unfold logged. cbn [CHILDREN calls procs set_procs set_calls].
  split; [done |]. split; [done |].
  destruct (stuck_child (spawned options prog None (Running None (on_sigterm prog) false)))
    as [Hrc [s Hs]].
  eexists _, s. split; [by rewrite lookup_insert_eq |]. by split.
Qed.

Lemma signal_during_the_wait_never_exits_witness :
  let P := Sample.platform (Some Sample.serving) in
  let proc := fresh (dom (procs Sample.world0)) in
  ∃ w2,
    try_finally (@_run_supernode P default_options ∅)
                (_cleanup_children (F := main_thread)) Sample.world0
      = (Blocked, w2) ∧
    proc ∈ CHILDREN w2 ∧
    (∃ p, procs w2 !! proc = Some p ∧ has_exited p = false) ∧
    ∃ w3,
      _handle (F := Some proc) SIGTERM w2 = (Blocked, w3) ∧
      CHILDREN w3 = CHILDREN w2 ∧
      calls w3 = (calls w2 ++ ((proc,.) <$> stuck_calls))%list ∧
      ∃ p' s, procs w3 !! proc = Some p' ∧ returncode p' = None ∧
              child p' = Exited s.
Proof.
  intros P.
  apply (@signal_during_the_wait_never_exits P default_options ∅ Sample.world0
           Sample.serving SIGTERM); [vm_compute; reflexivity | reflexivity].
Defined.

(** ** The summary slot *)

Lemma capture_keeps_slot `{Externals} (line : string) (slot : option json) :
  slot_ok slot → slot_ok (_capture line slot).2.
Proof.
  intros Hok. rewrite capture_cases.
  destruct (decoder_escape line); [done |].
  destruct (decoded_payload line) as [v |]; [| done].
  destruct (is_dict v); [| done]. cbn.
  by destruct (is_train v) eqn:Ht.
Qed.

Lemma stream_keeps_slot `{Externals} (lines : list string) (slot : option json) :
  slot_ok slot → slot_ok (_stream_loop lines (Some _capture) slot).2.
Proof.
  revert slot. induction lines as [| raw rest IH]; intros slot Hok; [done |].
  cbn [_stream_loop]. destruct (decide (raw = "")); [done |].
  unfold mbind, M_bind, bind.
  pose proof (capture_keeps_slot (Str.rstrip raw) slot Hok) as Hstep.
  destruct (_capture (Str.rstrip raw) slot) as [[[] | e |] slot']; cbn in *; try done.
  by apply IH.
Qed.

(** X5. Whatever the worker writes and whatever the decoder makes of it,
    the slot that the stdout relay leaves is empty or holds an object whose
    [kind] is ["train"]; this also holds when the hook has raised. *)
Theorem captured_is_a_train_record `{Externals} (lines : list string) :
  slot_ok (captured lines).
Proof.
  unfold captured, Thread_join, _stream_lines.
  pose proof (stream_keeps_slot lines None I) as Hok.
  by destruct (_stream_loop lines (Some _capture) None) as [[[] | e |] slot].
Qed.

(** X6. Every record that a run returns is an object whose [kind] is
    ["train"], be it a captured summary or the fallback. *)
Theorem run_returns_a_train_record `{Externals} (options : Namespace)
    (env : gmap string string) (w w' : World) (record : json) :
  _run_supernode options env w = (Ok record, w') →
  is_train record = true.
Proof.
  intros Hrun.
  destruct (os_exec (cmd options) env) as [prog |] eqn:Hexec.
  - rewrite (run_supernode_spawned _ _ _ _ Hexec) in Hrun.
    destruct (lifetime prog) as [[n code] |]; [| done].
    destruct (code =? 0); [| done]. injection Hrun as <- _.
    assert (Hok : slot_ok (captured (out_lines prog))).
    { unfold captured, Thread_join, _stream_lines.
      pose proof (stream_keeps_slot (out_lines prog) None I) as Hslot.
      by destruct (_stream_loop (out_lines prog) (Some _capture) None)
        as [[[] | e |] slot]. }
    by destruct (captured (out_lines prog)).
  - by rewrite (run_supernode_not_found _ _ _ Hexec) in Hrun.
Qed.

Lemma run_returns_a_train_record_witness :
  let P := Sample.platform (Some Sample.reporting) in
  ∃ record w',
    @_run_supernode P default_options ∅ Sample.world0 = (Ok record, w') ∧
    is_train record = true.
Proof.
  intros P.
  pose (r := @_run_supernode P default_options ∅ Sample.world0).
  assert (Hrun : r = (Ok (JDict [("kind", JStr "train"); ("nodeId", JInt 2)]), r.2)).
  { vm_compute. reflexivity. }
  eexists _, _. split; [exact Hrun |].
  exact (@run_returns_a_train_record P default_options ∅ Sample.world0 _ _ Hrun).
Defined.



(** ** The plugin entry point, continued *)

Lemma description_argv_eq :
  [ "chris_plugin_info"; "--dock-image"; IMAGE_TAG; "--name"; "pl-supernode";
    "--public-repo"; REPO_URL ] = description_argv.
Proof. done. Qed.

(** X8. [emit_plugin_json] calls [chris_plugin_info] under its own command
    line and puts [sys.argv] back, whether the call returns or raises; the
    outcome is that of the call and nothing else has changed. *)
Theorem emit_plugin_json_restores_argv `{Externals} (w : World) :
  emit_plugin_json w =
    match chris_plugin_info_main description_argv with
    | Blocked => (Blocked, set_argv description_argv w)
    | r => (r, w)
    end.
Proof.
  unfold emit_plugin_json, try_finally, mbind, M_bind, bind, get, modify, lift.
  change [ "chris_plugin_info"; "--dock-image"; IMAGE_TAG; "--name"; "pl-supernode";
           "--public-repo"; REPO_URL ] with description_argv.
  destruct (chris_plugin_info_main description_argv) as [[] | e |];
    cbn; try done; by destruct w.
Qed.

(** X9. When the description of the plugin is asked for, [_plugin_main]
    installs the signal handlers, emits the description and does nothing
    else: no directory is made, no child is started and no file is written,
    whatever the other options are. *)
Theorem description_request_has_no_side_effect `{Externals} (options : Namespace)
    (inputdir outputdir : Path) (w : World) :
  json_flag options = true →
  _plugin_main options inputdir outputdir w =
    match chris_plugin_info_main description_argv with
    | Blocked => (Blocked, set_argv description_argv (armed w))
    | r => (r, armed w)
    end.
Proof.
  intros Hjson. rewrite plugin_main_json by done.
  unfold emit_plugin_json, try_finally, mbind, M_bind, bind, get, modify, lift.
  rewrite description_argv_eq.
  destruct (chris_plugin_info_main description_argv) as [[] | e |];
    cbn; try done; by destruct w.
Qed.

Lemma description_request_has_no_side_effect_witness :
  let P := Sample.platform None in
  json_flag Sample.describe_options = true ∧
  @_plugin_main P Sample.describe_options (Path_of "/in") (Path_of "/out") Sample.world0
  = (Ok tt, armed Sample.world0).
Proof.
  intros P. split; [reflexivity |].
  exact (@description_request_has_no_side_effect P Sample.describe_options
           (Path_of "/in") (Path_of "/out") Sample.world0 eq_refl).
Defined.

(** X10. When the result file cannot be written, the error of the write is
    raised and the per-node directory is left behind, also with [keep_state]
    unset: the removal comes after the write only.  The children have been
    swept by then. *)
Theorem failed_write_leaves_state_directory `{Externals} (options : Namespace)
    (inputdir outputdir : Path) (w w1 w2 w3 : World) (env : gmap string string)
    (home : Path) (summary : json) (e : exn) :
  json_flag options = false →
  valid_pair options →
  _prepare_environment (state_dir options) (cid options) (armed w)
    = (Ok (env, home), w1) →
  _run_supernode options env w1 = (Ok summary, w2) →
  Path_write_text (Path_div outputdir (metrics_file options)) (json_dumps summary 2)
    (_cleanup_children w2).2 = (Raise e, w3) →
  _plugin_main options inputdir outputdir w = (Raise e, w3) ∧
  is_OSError e = true ∧
  fs w3 = fs w1 ∧ Path_is_dir w3 home = true ∧ CHILDREN w3 = [].
Proof.
  intros Hjson Hok Hprep Hrun Hwrite.
  rewrite plugin_main_valid, Hprep by done.
  destruct (prepare_environment_outcome _ _ _ _ _ Hprep) as (_ & _ & Hhome).
  destruct (Hhome env home eq_refl) as [Hdir1 _].
  destruct (supervised_run _ _ _ _ _ Hrun)
    as (_ & _ & _ & w2' & -> & Hfs & Hcwd & Hswept).
  destruct Hswept as [-> Hreg]; [done |].
  rewrite Hwrite.
  destruct (write_text_cases (Path_div outputdir (metrics_file options))
              (json_dumps summary 2) (_cleanup_children w2).2)
    as [(rk & _ & Heq) | (e' & Heq & He)]; rewrite Heq in Hwrite; [done |].
  injection Hwrite as <- <-.
  repeat split; try done. by rewrite (is_dir_ext w1).
Qed.

Lemma failed_write_leaves_state_directory_witness :
  let P := Sample.platform (Some Sample.reporting) in
  keep_state default_options = false ∧
  ∃ w3,
    @_plugin_main P default_options (Path_of "/in") (Path_of "/missing") Sample.world0
      = (Raise FileNotFoundError, w3) ∧
    fs w3 = fs Sample.prepared ∧ Path_is_dir w3 Sample.home = true ∧ CHILDREN w3 = [].
Proof.
  intros P. split; [reflexivity |].
  pose (summary := JDict [("kind", JStr "train"); ("nodeId", JInt 2)]).
  pose (w2 := after_run default_options Sample.reporting (Some 0) (Exited 0)
                Sample.prepared).
  pose (written := Path_write_text
                     (Path_div (Path_of "/missing") (metrics_file default_options))
                     (@json_dumps P summary 2) (_cleanup_children w2).2).
  assert (Hprep : @_prepare_environment P (state_dir default_options)
                    (cid default_options) (armed Sample.world0)
                  = (Ok (Sample.child_env, Sample.home), Sample.prepared)).
  { vm_compute. reflexivity. }
  assert (Hrun : @_run_supernode P default_options Sample.child_env Sample.prepared
                 = (Ok summary, w2)).
  { vm_compute. reflexivity. }
  assert (Hwrite : written = (Raise FileNotFoundError, written.2)).
  { vm_compute. reflexivity. }
  assert (Hok : valid_pair default_options).
  { unfold valid_pair, default_options, DEFAULT_TOTAL_CLIENTS. cbn. lia. }
  destruct (@failed_write_leaves_state_directory P default_options (Path_of "/in")
              (Path_of "/missing") Sample.world0 _ _ _ _ _ _ _ eq_refl Hok Hprep Hrun
              Hwrite) as (Hmain & _ & Hfs & Hdir & Hreg).
  by exists written.2.
Defined.

(** X11. When the environment builder fails, [_plugin_main] raises its
    error, which is an [OSError] or the [RuntimeError] of an unknown home
    directory, before anything is started: no child, no call on a handle, no
    file; at most some directories have been made on the way. *)
Theorem failed_preparation_starts_nothing `{Externals} (options : Namespace)
    (inputdir outputdir : Path) (w w1 : World) (e : exn) :
  json_flag options = false →
  valid_pair options →
  _prepare_environment (state_dir options) (cid options) (armed w) = (Raise e, w1) →
  _plugin_main options inputdir outputdir w = (Raise e, w1) ∧
  (is_OSError e = true ∨ e = RuntimeError "Could not determine home directory.") ∧
  procs w1 = procs w ∧ CHILDREN w1 = CHILDREN w ∧ calls w1 = calls w ∧
  ∀ k, fs w1 !! k = fs w !! k ∨ (fs w !! k = None ∧ fs w1 !! k = Some Dir).
Proof.
  intros Hjson Hok Hprep.
  rewrite plugin_main_valid, Hprep by done.
  destruct (prepare_environment_outcome _ _ _ _ _ Hprep)
    as ([(_ & _ & Hprocs & Hreg & _ & _ & Hcalls) Hfs] & _).
  repeat split; try done.
  unfold _prepare_environment, mbind, M_bind, bind, get, ret in Hprep.
  unfold Path_expanduser in Hprep.
  destruct (parts (Path_of (state_dir options))) as [| first rest] eqn:Hparts.
  - cbn in Hprep.
    destruct (Path_mkdir _ true true (armed w)) as [r1 w'] eqn:Hmk.
    pose proof (mkdir_rev_outcome _ _ _ _ _ _ _ Hmk) as Hout.
    destruct r1 as [[] | e1 |]; try done. injection Hprep as <- _. by left.
  - destruct (bool_decide _ && String.prefix "~" first).
    + unfold mbind, M_bind, bind, get, raise, ret in Hprep.
      destruct (String.prefix "~" _).
      * injection Hprep as <- _. by right.
      * destruct (Path_mkdir _ true true (armed w)) as [r1 w'] eqn:Hmk.
        pose proof (mkdir_rev_outcome _ _ _ _ _ _ _ Hmk) as Hout.
        destruct r1 as [[] | e1 |]; try done. injection Hprep as <- _. by left.
    + cbn in Hprep.
      destruct (Path_mkdir _ true true (armed w)) as [r1 w'] eqn:Hmk.
      pose proof (mkdir_rev_outcome _ _ _ _ _ _ _ Hmk) as Hout.
      destruct r1 as [[] | e1 |]; try done. injection Hprep as <- _. by left.
Qed.

Lemma failed_preparation_starts_nothing_witness :
  let P := Sample.platform (Some Sample.reporting) in
  @_plugin_main P default_options (Path_of "/in") (Path_of "/out") Sample.blocked_world
    = (Raise NotADirectoryError, armed Sample.blocked_world) ∧
  procs (armed Sample.blocked_world) = ∅ ∧ CHILDREN (armed Sample.blocked_world) = [].
Proof.
  intros P.
  assert (Hprep : @_prepare_environment P (state_dir default_options)
                    (cid default_options) (armed Sample.blocked_world)
                  = (Raise NotADirectoryError, armed Sample.blocked_world)).
  { vm_compute. reflexivity. }
  assert (Hok : valid_pair default_options).
  { unfold valid_pair, default_options, DEFAULT_TOTAL_CLIENTS. cbn. lia. }
  destruct (@failed_preparation_starts_nothing P default_options (Path_of "/in")
              (Path_of "/out") Sample.blocked_world _ _ eq_refl Hok Hprep)
    as (Hmain & _ & Hprocs & Hreg & _).
  by split.
Defined.

(** ** The environment builder, continued *)

(** X12. Whatever its outcome, [_prepare_environment] only makes
    directories: no entry is removed or replaced, no file appears, and the
    ambient environment, the working directory and the process table are
    left alone.  It never fails with the validation error, and when it
    succeeds the directory exists and its last part is a proper name. *)
Theorem environment_builder_only_adds_directories `{Externals} (state_root : string)
    (cid : Z) (w w1 : World) (r : result (gmap string string * Path)) :
  _prepare_environment state_root cid w = (r, w1) →
  dirs_added w w1 ∧ raises_ValueError r = false ∧
  ∀ env home, r = Ok (env, home) → Path_is_dir w1 home = true ∧ proper_leaf home.
Proof. apply prepare_environment_outcome. Qed.

Lemma environment_builder_only_adds_directories_witness :
  let P := Sample.platform None in
  dirs_added (armed Sample.world0) Sample.prepared ∧
  Path_is_dir Sample.prepared Sample.home = true ∧ proper_leaf Sample.home.
Proof.
  intros P.
  assert (Hprep : @_prepare_environment P (state_dir default_options)
                    (cid default_options) (armed Sample.world0)
                  = (Ok (Sample.child_env, Sample.home), Sample.prepared)).
  { vm_compute. reflexivity. }
  destruct (@environment_builder_only_adds_directories P _ _ _ _ _ Hprep)
    as (Hadded & _ & Hhome).
  split; [exact Hadded |]. by apply (Hhome Sample.child_env).
Defined.

Lemma append_cancel_l (s a b : string) : s +:+ a = s +:+ b → a = b.
Proof. induction s as [| c s IH]; [done |]. cbn. intros [= Heq]. by apply IH. Qed.

Lemma join_snoc_inj (sep : string) (l : list string) (a b : string) :
  Str.join sep (l ++ [a]) = Str.join sep (l ++ [b]) → a = b.
Proof.
  induction l as [| x l IH]; [done |].
  destruct l as [| y l]; cbn [app Str.join] in *.
  - intros Heq. by apply append_cancel_l, append_cancel_l in Heq.
  - intros Heq. apply append_cancel_l, append_cancel_l in Heq. by apply IH.
Qed.

Lemma Path_str_snoc_inj (rt : string) (l : list string) (a b : string) :
  Path_str (mkPath rt (l ++ [a])) = Path_str (mkPath rt (l ++ [b])) → a = b.
Proof.
  unfold Path_str. cbn [root parts].
  rewrite !decide_False by (intros [_ Hnil]; by destruct l).
  intros Heq. apply append_cancel_l in Heq. by eapply join_snoc_inj.
Qed.

(** X13. Two node ids never share a working directory: under the same
    ambient environment and state root, successful calls for different ids
    return different directories with different [FLWR_HOME] values, both
    children of the same parent. *)
Theorem nodes_get_distinct_directories `{Externals} (state_root : string)
    (cid cid' : Z) (w w' w1 w1' : World) (env env' : gmap string string)
    (home home' : Path) :
  environ w' = environ w →
  _prepare_environment state_root cid w = (Ok (env, home), w1) →
  _prepare_environment state_root cid' w' = (Ok (env', home'), w1') →
  cid ≠ cid' →
  home ≠ home' ∧
  env !! "FLWR_HOME" ≠ env' !! "FLWR_HOME" ∧
  Path_parent home = Path_parent home'.
Proof.
  intros Henv Hrun Hrun' Hne.
  unfold _prepare_environment, mbind, M_bind, bind, get, ret in Hrun, Hrun'.
  destruct (expanduser_frame (Path_of state_root) w w' Henv) as (r & Hexp & Hexp').
  rewrite Hexp in Hrun. rewrite Hexp' in Hrun'.
  destruct r as [h | e |]; try done.
  destruct (Path_mkdir _ true true w) as [[[] | e |] v]; try done.
  destruct (Path_mkdir _ true true w') as [[[] | e |] v']; try done.
  injection Hrun as <- <- _. injection Hrun' as <- <- _.
  destruct (cid_directory h cid) as [-> _].
  destruct (cid_directory h cid') as [-> _].
  assert (Hname : "cid-" +:+ pretty cid ≠ "cid-" +:+ pretty cid').
  { intros Heq. apply append_cancel_l in Heq. by apply pretty_Z_inj in Heq. }
  split; [| split].
  - intros [= Heq]. apply app_inj_tail in Heq as [_ Heq]. by destruct Hname.
  - rewrite !lookup_insert_eq. intros [= Heq].
    apply Path_str_snoc_inj in Heq. by destruct Hname.
  - unfold Path_parent. cbn [root parts]. by rewrite !removelast_last.
Qed.

Lemma nodes_get_distinct_directories_witness :
  let P := Sample.platform None in
  ∃ env env' home home' w1 w1',
    @_prepare_environment P "/tmp/fedmed-flwr-node" 0 Sample.world0
      = (Ok (env, home), w1) ∧
    @_prepare_environment P "/tmp/fedmed-flwr-node" 1 w1 = (Ok (env', home'), w1') ∧
    home ≠ home' ∧ env !! "FLWR_HOME" ≠ env' !! "FLWR_HOME" ∧
    Path_parent home = Path_parent home'.
Proof.
  intros P.
  pose (r := @_prepare_environment P "/tmp/fedmed-flwr-node" 0 Sample.world0).
  pose (r' := @_prepare_environment P "/tmp/fedmed-flwr-node" 1 r.2).
  assert (Hr : r = (Ok (Sample.child_env, Sample.home), r.2)).
  { vm_compute. reflexivity. }
  assert (Hr' : r' = (Ok (<["FLWR_HOME" := "/tmp/fedmed-flwr-node/cid-1"]>
                            (environ Sample.world0),
                          mkPath "/" ["tmp"; "fedmed-flwr-node"; "cid-1"]), r'.2)).
  { vm_compute. reflexivity. }
  eexists _, _, _, _, _, _. split; [exact Hr |]. split; [exact Hr' |].
  assert (Henv : environ r.2 = environ Sample.world0).
  { vm_compute. reflexivity. }
  exact (@nodes_get_distinct_directories P "/tmp/fedmed-flwr-node" 0 1
           Sample.world0 r.2 r.2 r'.2 _ _ _ _ Henv Hr Hr' ltac:(done)).
Defined.

(** X14. A state root under the home directory of a user that the password
    database does not know, or under [~] when neither [HOME] nor the
    database gives a home: [_prepare_environment] raises [RuntimeError] and
    makes nothing. *)
Theorem unknown_home_is_an_error `{Externals} (state_root : string) (cid : Z)
    (w : World) (first : string) (rest : list string) :
  Path_of state_root = mkPath "" (first :: rest) →
  (first = "~" ∧ environ w !! "HOME" = None ∧ getpwuid_dir = None) ∨
  (∃ name, first = "~" +:+ name ∧ name ≠ "" ∧ getpwnam_dir name = None) →
  _prepare_environment state_root cid w
  = (Raise (RuntimeError "Could not determine home directory."), w).
Proof.
  intros Hpath Hcase.
  unfold _prepare_environment, Path_expanduser, mbind, M_bind, bind, get, ret, raise.
  rewrite Hpath. cbn [root parts]. rewrite bool_decide_true by done.
  assert (Hexp : String.prefix "~" first = true ∧
                 os_path_expanduser (environ w) first = first).
  { unfold os_path_expanduser.
    destruct Hcase as [(-> & Hhome & Hpw) | (name & -> & Hname & Hpw)].
    - split; [done |]. rewrite decide_True by done. cbn. by rewrite Hhome, Hpw.
    - destruct name as [| c name]; [done |].
      change ("~" +:+ String c name) with (String "~" (String c name)).
      split; [done |]. rewrite decide_False by done.
      cbn. by rewrite Hpw. }
  destruct Hexp as [Hpre Hexp]. rewrite Hpre. cbn [andb].
  by rewrite Hexp, Hpre.
Qed.

Lemma unknown_home_is_an_error_witness :
  let P := Sample.platform None in
  @_prepare_environment P "~nobody/state" 0 Sample.world0
  = (Raise (RuntimeError "Could not determine home directory."), Sample.world0).
Proof.
  intros P.
  apply (@unknown_home_is_an_error P "~nobody/state" 0 Sample.world0 "~nobody" ["state"]);
    [vm_compute; reflexivity |].
  right. by exists "nobody".
Defined.

(** ** The node configuration flag *)

Lemma pretty_N_go_avoids (x : ascii) (n : N) (s : string) :
  (∀ d, Ascii.eqb (pretty_N_char d) x = false) →
  has_char x s = false → has_char x (pretty_N_go n s) = false.
Proof.
  intros Hdigit. revert s. induction (N.lt_wf_0 n) as [n _ IH]; intros s Hs.
  destruct (decide (n = 0)%N) as [-> | Hn]; [by rewrite pretty_N_go_0 |].
  rewrite pretty_N_go_step by lia.
  apply IH; [apply N.div_lt; lia |].
  cbn [has_char]. by rewrite Hs, Hdigit.
Qed.

Lemma pretty_Z_avoids (x : ascii) (n : Z) :
  (∀ d, Ascii.eqb (pretty_N_char d) x = false) →
  Ascii.eqb "-" x = false →
  has_char x (pretty n) = false.
Proof.
  intros Hdigit Hminus.
  assert (Hpos : ∀ p : positive, has_char x (pretty (N.pos p)) = false).
  { intros p. unfold pretty, pretty_N. rewrite decide_False by done.
    by apply pretty_N_go_avoids. }
  destruct n as [| p | p].
  - change (pretty 0) with "0". cbn. specialize (Hdigit 0%N). cbn in Hdigit.
    by rewrite Hdigit.
  - apply Hpos.
  - change (pretty (Z.neg p)) with (String "-" (pretty (N.pos p))).
    cbn [has_char]. by rewrite Hminus, Hpos.
Qed.

Lemma pretty_Z_no_space (n : Z) : has_char " " (pretty n) = false.
Proof.
  apply pretty_Z_avoids; [| done].
  intros d. unfold pretty_N_char. by repeat case_match.
Qed.

(** Two texts cut at the first occurrence of a character agree part by
    part. *)
Lemma split_at_char (x : ascii) (s1 s2 t1 t2 : string) :
  has_char x s1 = false → has_char x s2 = false →
  s1 +:+ String x t1 = s2 +:+ String x t2 → s1 = s2 ∧ t1 = t2.
Proof.
  revert s2. induction s1 as [| c s1 IH]; intros [| c' s2]; cbn [has_char].
  - intros _ _ [= ->]. done.
  - intros _ [Hc _]%orb_false_elim [= Hx _]. subst. by rewrite Ascii.eqb_refl in Hc.
  - intros [Hc _]%orb_false_elim _ [= Hx _]. subst. by rewrite Ascii.eqb_refl in Hc.
  - intros [_ H1]%orb_false_elim [_ H2]%orb_false_elim [= -> Heq].
    destruct (IH s2 H1 H2 Heq) as [-> ->]. done.
Qed.

(** X15. The flag that carries the node configuration is unambiguous: two
    configurations that differ in the node id, the node count or the seed
    give different flags. *)
Theorem node_config_flag_is_unambiguous (c1 c2 : NodeConfig.t) :
  c1 ≠ c2 → NodeConfig.as_flag c1 ≠ NodeConfig.as_flag c2.
Proof.
  intros Hne Heq. apply Hne. clear Hne.
  destruct c1 as [a1 b1 s1], c2 as [a2 b2 s2].
  unfold NodeConfig.as_flag in Heq. cbn [NodeConfig.cid NodeConfig.total_clients
    NodeConfig.data_seed] in Heq.
  apply append_cancel_l in Heq.
  apply split_at_char in Heq as [Ha Heq]; [| apply pretty_Z_no_space..].
  apply append_cancel_l in Heq.
  apply split_at_char in Heq as [Hb Heq]; [| apply pretty_Z_no_space..].
  apply append_cancel_l in Heq.
  apply pretty_Z_inj in Ha, Hb, Heq. by subst.
Qed.

Lemma node_config_flag_is_unambiguous_witness :
  NodeConfig.mk 1 13 3 ≠ NodeConfig.mk 11 3 3 ∧
  NodeConfig.as_flag (NodeConfig.mk 1 13 3) ≠ NodeConfig.as_flag (NodeConfig.mk 11 3 3).
Proof.
  assert (Hne : NodeConfig.mk 1 13 3 ≠ NodeConfig.mk 11 3 3) by done.
  split; [exact Hne |].
  exact (node_config_flag_is_unambiguous _ _ Hne).
Defined.

(** ** The version reader of [setup.py] *)

Lemma read_version_unfold (w w' : World) (text : string) :
  Path_read_text (Path_of "app.py") w = (Ok text, w') →
  read_version w = (read_version_lines (Str.splitlines text), w').
Proof.
  intros Hread. unfold read_version, mbind, M_bind, bind, lift. rewrite Hread.
  by destruct (read_version_lines _).
Qed.

Lemma read_version_skips (pre rest : list string) :
  Forall (λ l, String.prefix "__version__" l = false) pre →
  read_version_lines (pre ++ rest) = read_version_lines rest.
Proof.
  induction 1 as [| l pre Hl _ IH]; [done |].
  cbn [app read_version_lines]. by rewrite Hl.
Qed.

(** X16. Without a line that starts with [__version__] in [app.py],
    [read_version] raises [RuntimeError]; with one, the first such line
    decides and the lines after it are not looked at, and if that line holds
    no [=] the outcome is an [IndexError] instead. *)
Theorem read_version_errors (w w' : World) (text : string) :
  Path_read_text (Path_of "app.py") w = (Ok text, w') →
  (Forall (λ l, String.prefix "__version__" l = false) (Str.splitlines text) →
   read_version w
   = (Raise (RuntimeError "Unable to determine version from app.py"), w')) ∧
  (∀ pre line post,
     Str.splitlines text = (pre ++ line :: post)%list →
     Forall (λ l, String.prefix "__version__" l = false) pre →
     String.prefix "__version__" line = true →
     read_version w = (read_version_lines [line], w') ∧
     (has_char "=" line = false → read_version w = (Raise IndexError, w'))).
Proof.
  intros Hread. rewrite (read_version_unfold _ _ _ Hread). split.
  - intros Hnone.
    rewrite <- (app_nil_r (Str.splitlines text)). by rewrite read_version_skips.
  - intros pre line post -> Hpre Hline.
    rewrite read_version_skips by done.
    cbn [read_version_lines]. rewrite Hline.
    split; [done |].
    intros Hno. by rewrite (split_char_no_sep _ _ Hno).
Qed.

Lemma read_version_errors_witness :
  let w := set_fs (<[["work"; "app.py"] := File "__version__"]> (fs Sample.world0))
                  Sample.world0 in
  read_version w = (Raise IndexError, w).
Proof.
  intros w.
  assert (Hread : Path_read_text (Path_of "app.py") w = (Ok "__version__", w)).
  { vm_compute. reflexivity. }
  destruct (read_version_errors w w "__version__" Hread) as [_ Hline].
  by apply (Hline [] "__version__" []).
Defined.

Lemma has_char_app (x : ascii) (a b : string) :
  has_char x (a +:+ b) = has_char x a || has_char x b.
Proof.
  induction a as [| c a IH]; [done |].
  change (String c a +:+ b) with (String c (a +:+ b)). cbn [has_char].
  by rewrite IH, orb_assoc.
Qed.

Lemma split_char_once (sep : ascii) (a b : string) :
  has_char sep a = false → has_char sep b = false →
  Str.split_char sep (a +:+ String sep b) = [a; b].
Proof.
  intros Ha Hb. induction a as [| c a IH].
  - change ("" +:+ String sep b) with (String sep b).
    cbn [Str.split_char]. by rewrite Ascii.eqb_refl, (split_char_no_sep _ _ Hb).
  - change (String c a +:+ String sep b) with (String c (a +:+ String sep b)).
    cbn [has_char] in Ha. apply orb_false_elim in Ha as [Hc Ha].
    cbn [Str.split_char]. by rewrite Hc, (IH Ha).
Qed.

Lemma lstrip_char_start (x : ascii) (s : string) :
  starts_with_char x s = false → Str.lstrip_char x s = s.
Proof. destruct s as [| c s]; [done |]. cbn. by intros ->. Qed.

Lemma rstrip_char_end (x : ascii) (s : string) :
  ends_with_char x s = false → Str.rstrip_char x s = s.
Proof.
  induction s as [| c s IH]; [done |].
  cbn [Str.rstrip_char]. destruct s as [| c' s].
  - cbn. by intros ->.
  - intros Hend. by rewrite (IH Hend).
Qed.

Lemma rstrip_char_snoc (x : ascii) (s : string) :
  Str.rstrip_char x (s +:+ String x "") = Str.rstrip_char x s.
Proof.
  induction s as [| c s IH].
  - change ("" +:+ String x "") with (String x "").
    cbn [Str.rstrip_char]. by rewrite Ascii.eqb_refl.
  - change (String c s +:+ String x "") with (String c (s +:+ String x "")).
    cbn [Str.rstrip_char]. by rewrite IH.
Qed.

Lemma rstrip_snoc (c : ascii) (s : string) :
  Str.isspace c = false → Str.rstrip (s +:+ String c "") = s +:+ String c "".
Proof.
  intros Hc. induction s as [| c' s IH].
  - change ("" +:+ String c "") with (String c "").
    cbn [Str.rstrip]. by rewrite Hc.
  - change (String c' s +:+ String c "") with (String c' (s +:+ String c "")).
    cbn [Str.rstrip]. rewrite IH. by destruct s.
Qed.

Lemma strip_quoted (v : string) : Str.strip (String " " (quoted v)) = quoted v.
Proof.
  unfold Str.strip, quoted. cbn [Str.lstrip].
  change (Str.isspace " ") with true. change (Str.isspace "034") with false.
  cbn match.
  change (String "034" (v +:+ String "034" ""))
    with (String "034" v +:+ String "034" "").
  by apply rstrip_snoc.
Qed.

Lemma strip_char_quoted (v : string) :
  starts_with_char "034" v = false → ends_with_char "034" v = false →
  Str.strip_char "034" (quoted v) = v.
Proof.
  intros Hstart Hend. unfold Str.strip_char, quoted.
  cbn [Str.lstrip_char]. rewrite Ascii.eqb_refl.
  destruct v as [| c v]; [by cbn |].
  cbn in Hstart.
  change (String c v +:+ String "034" "") with (String c (v +:+ String "034" "")).
  cbn [Str.lstrip_char]. rewrite Hstart.
  change (String c (v +:+ String "034" "")) with (String c v +:+ String "034" "").
  rewrite rstrip_char_snoc. by apply rstrip_char_end.
Qed.

(** X17. For a first version line of the usual form, [__version__ = "v"],
    [read_version] returns [v] itself, whatever follows in the file. *)
Theorem read_version_of_plain_line (w w' : World) (text v : string)
    (pre post : list string) :
  Path_read_text (Path_of "app.py") w = (Ok text, w') →
  Str.splitlines text = (pre ++ ("__version__ = " +:+ quoted v) :: post)%list →
  Forall (λ l, String.prefix "__version__" l = false) pre →
  plain_version v →
  read_version w = (Ok v, w').
Proof.
  intros Hread Hlines Hpre (Heq & Hd1 & Hd2 & Hs1 & Hs2).
  rewrite (read_version_unfold _ _ _ Hread), Hlines, read_version_skips by done.
  cbn [read_version_lines].
  change ("__version__ = " +:+ quoted v)
    with ("__version__ " +:+ String "=" (String " " (quoted v))).
  assert (Hfield : has_char "=" (String " " (quoted v)) = false).
  { unfold quoted. cbn [has_char]. rewrite has_char_app, Heq. done. }
  assert (Hsplit : Str.split_char "=" ("__version__ " +:+ String "=" (String " " (quoted v)))
                   = ["__version__ "; String " " (quoted v)]).
  { by apply split_char_once. }
  rewrite Hsplit. cbn [lookup list_lookup].
  change (String.prefix "__version__" _) with true. cbn match.
  rewrite strip_quoted, strip_char_quoted by done.
  unfold Str.strip_char. by rewrite lstrip_char_start, rstrip_char_end.
Qed.

Lemma read_version_of_plain_line_witness :
  read_version Sample.source_tree = (Ok "0.0.5", Sample.source_tree).
Proof.
  apply (read_version_of_plain_line Sample.source_tree Sample.source_tree
           Sample.app_py "0.0.5" ["import os"; ""]
           ["__version__ = " +:+ quoted "9.9"]).
  - vm_compute. reflexivity.
  - vm_compute. reflexivity.
  - by repeat constructor.
  - by repeat split.
Defined.

(** ** The result file and the teardown *)

Lemma write_text_location (p : Path) (data : string) (w w' : World) :
  Path_write_text p data w = (Ok tt, w') →
  ∃ k, locate w p = Ok k ∧ locate w' p = Ok k ∧ stat (fs w) k ≠ Some Dir ∧
       w' = set_fs (<[k := File data]> (fs w)) w.
Proof.
  unfold Path_write_text, locate, mbind, M_bind, bind, get, lift, raise, modify.
  destruct (resolve_parent w p) as [[d [name |]] | |] eqn:Hres; try done.
  destruct (decide (name = "..")) as [| Hname]; [done |].
  destruct (stat (fs w) (d ++ [name])) as [[| content] |] eqn:Hstat; [done | |];
    intros [= <-]; exists (d ++ [name])%list;
    (split; [done |]); (split; [| split; [by rewrite Hstat | done]]);
    rewrite (resolve_parent_insert _ _ _ _ _ ltac:(by rewrite Hstat) Hres);
    by rewrite decide_False.
Qed.

(** X18. After a run that has returned a record, the result file holds the
    serialized record at the place its path points to.  It outlives the
    teardown when [keep_state] is set or when that place is not below the
    per-node directory; when the output directory lies inside the per-node
    directory and [keep_state] is unset, the teardown removes the result
    file with the rest and [_plugin_main] still returns normally. *)
Theorem result_file_and_teardown `{Externals} (options : Namespace)
    (inputdir outputdir : Path) (w w1 w2 w3 : World) (env : gmap string string)
    (home : Path) (summary : json) :
  json_flag options = false →
  valid_pair options →
  _prepare_environment (state_dir options) (cid options) (armed w)
    = (Ok (env, home), w1) →
  _run_supernode options env w1 = (Ok summary, w2) →
  Path_write_text (Path_div outputdir (metrics_file options)) (json_dumps summary 2)
    (_cleanup_children w2).2 = (Ok tt, w3) →
  ∃ w' result_key key,
    _plugin_main options inputdir outputdir w = (Ok tt, w') ∧
    locate w3 (Path_div outputdir (metrics_file options)) = Ok result_key ∧
    locate w3 home = Ok key ∧
    fs w3 !! result_key = Some (File (json_dumps summary 2)) ∧
    (keep_state options = true ∨ ¬ key `prefix_of` result_key →
       fs w' !! result_key = Some (File (json_dumps summary 2))) ∧
    (keep_state options = false → key `prefix_of` result_key →
       fs w' !! result_key = None).
Proof.
  intros Hjson Hok Hprep Hrun Hwrite.
  rewrite plugin_main_valid, Hprep by done.
  destruct (prepare_environment_outcome _ _ _ _ _ Hprep) as (_ & _ & Hhome).
  destruct (Hhome env home eq_refl) as [Hdir1 (name & Hlast & Hname)].
  destruct (supervised_run _ _ _ _ _ Hrun)
    as (_ & _ & _ & w2' & -> & Hfs & Hcwd & Hswept).
  destruct Hswept as [-> _]; [done |].
  rewrite Hwrite.
  assert (Hdir2 : Path_is_dir (_cleanup_children w2).2 home = true).
  { by rewrite (is_dir_ext w1). }
  destruct (write_text_location _ _ _ _ Hwrite) as (rk & _ & Hrk & Hnodir & Hw3).
  pose proof (is_dir_insert _ home rk (File (json_dumps summary 2)) Hnodir Hdir2) as Hdir3.
  rewrite <- Hw3 in Hdir3.
  assert (Hfile : fs w3 !! rk = Some (File (json_dumps summary 2))).
  { rewrite Hw3. cbn [fs set_fs]. by rewrite lookup_insert_eq. }
  clear Hw3 Hwrite.
  destruct (rmtree_cases home w3) as [(key & Hloc & Hstat & Hrm) | [Hno _]].
  2: { unfold Path_is_dir in Hdir3.
       destruct (locate w3 home) as [k | |] eqn:Hloc; try done.
       specialize (Hno k eq_refl). by destruct (stat (fs w3) k) as [[] |]. }
  destruct (keep_state options) eqn:Hkeep.
  - exists w3, rk, key. by repeat split.
  - exists (shutil_rmtree home true w3).2, rk, key.
    rewrite Hrm. cbn [snd fs set_fs].
    do 4 (split; [done |]). split.
    + intros [? | Hout]; [done |].
      apply map_lookup_filter_Some_2; [done |]. by left.
    + intros _ Hpre. apply map_lookup_filter_None_2. right.
      intros x Hx. cbn. intros [Hnot | [_ [Hparts | Hdots]]]; [done | |].
      * by rewrite Hparts in Hlast.
      * rewrite Hlast in Hdots. by injection Hdots as ->.
Qed.

Lemma result_file_and_teardown_witness :
  let P := Sample.platform (Some Sample.reporting) in
  ∃ w',
    @_plugin_main P default_options (Path_of "/in")
      (Path_of "/tmp/fedmed-flwr-node/cid-0") Sample.world0 = (Ok tt, w') ∧
    fs w' !! ["tmp"; "fedmed-flwr-node"; "cid-0"; "client_metrics.json"] = None.
Proof.
  intros P.
  pose (out := Path_of "/tmp/fedmed-flwr-node/cid-0").
  pose (summary := JDict [("kind", JStr "train"); ("nodeId", JInt 2)]).
  pose (w2 := after_run default_options Sample.reporting (Some 0) (Exited 0)
                Sample.prepared).
  pose (written := Path_write_text (Path_div out (metrics_file default_options))
                     (@json_dumps P summary 2) (_cleanup_children w2).2).
  assert (Hprep : @_prepare_environment P (state_dir default_options)
                    (cid default_options) (armed Sample.world0)
                  = (Ok (Sample.child_env, Sample.home), Sample.prepared)).
  { vm_compute. reflexivity. }
  assert (Hrun : @_run_supernode P default_options Sample.child_env Sample.prepared
                 = (Ok summary, w2)).
  { vm_compute. reflexivity. }
  assert (Hwrite : written = (Ok tt, written.2)).
  { vm_compute. reflexivity. }
  assert (Hok : valid_pair default_options).
  { unfold valid_pair, default_options, DEFAULT_TOTAL_CLIENTS. cbn. lia. }
  destruct (@result_file_and_teardown P default_options (Path_of "/in") out
              Sample.world0 _ _ _ _ _ _ eq_refl Hok Hprep Hrun Hwrite)
    as (w' & rk & key & Hmain & Hrk & Hloc & _ & _ & Hgone).
  assert (Hkey : key = ["tmp"; "fedmed-flwr-node"; "cid-0"]).
  { vm_compute in Hloc. by injection Hloc as <-. }
  assert (Hrkey : rk = ["tmp"; "fedmed-flwr-node"; "cid-0"; "client_metrics.json"]).
  { vm_compute in Hrk. by injection Hrk as <-. }
  subst key rk. exists w'. split; [exact Hmain |].
  apply Hgone; [reflexivity |]. by exists ["client_metrics.json"].
Defined.

(** ** The relay and a payload that is not an object *)





(** ** What the plugin leaves behind *)

Lemma emit_plugin_json_frame `{Externals} (w w' : World) (r : result unit) :
  emit_plugin_json w = (r, w') →
  environ w' = environ w ∧ cwd w' = cwd w ∧ fs w' = fs w ∧ procs w' = procs w ∧
  CHILDREN w' = CHILDREN w ∧ handlers w' = handlers w ∧ calls w' = calls w ∧
  (r ≠ Blocked → argv w' = argv w).
Proof.
  unfold emit_plugin_json, try_finally, mbind, M_bind, bind, get, modify, lift.
  destruct (chris_plugin_info_main _) as [[] | e |]; cbn; intros [= <- <-];
    by repeat split.
Qed.

Lemma supervised_run_frame `{Externals} (options : Namespace)
    (env : gmap string string) (w w3 : World) (r : result json) :
  try_finally (_run_supernode options env) _cleanup_children w = (r, w3) →
  environ w3 = environ w ∧ cwd w3 = cwd w ∧ fs w3 = fs w ∧
  handlers w3 = handlers w ∧ argv w3 = argv w ∧
  (r ≠ Blocked →
     CHILDREN w3 = [] ∧
     ∀ h p, procs w3 !! h = Some p → procs w !! h = None → has_exited p = true).
Proof.
  unfold try_finally.
  destruct (os_exec (cmd options) env) as [prog |] eqn:Hexec.
  - rewrite (run_supernode_spawned _ _ _ _ Hexec).
    destruct (lifetime prog) as [[n code] |].
    + set (w2 := after_run options prog (Some code) (Exited code) w).
      assert (Hw2 : environ w2 = environ w ∧ cwd w2 = cwd w ∧ fs w2 = fs w ∧
                    handlers w2 = handlers w ∧ argv w2 = argv w) by done.
      destruct Hw2 as (He2 & Hc2 & Hf2 & Hh2 & Ha2).
      assert (Hin : fresh (dom (procs w)) ∈ CHILDREN w2).
      { unfold w2, after_run. cbn [CHILDREN]. apply elem_of_app. right.
        apply list_elem_of_here. }
      assert (Hobj : procs w2 !! fresh (dom (procs w))
                     = Some (spawned options prog (Some code) (Exited code))).
      { unfold w2, after_run. cbn [procs]. by rewrite lookup_insert_eq. }
      assert (Hold : ∀ h, h ≠ fresh (dom (procs w)) → procs w2 !! h = procs w !! h).
      { intros h Hother. unfold w2, after_run. cbn [procs]. by rewrite lookup_insert_ne. }
      clearbody w2.
      rewrite cleanup_children_spec.
      destruct (sweep_frame (reverse (CHILDREN w2)) w2) as (He & Hc & Hf & _ & Hh & Ha).
      assert (Hprocs : ∀ h p,
                procs (foldl (flip sweep_one) w2 (reverse (CHILDREN w2))) !! h = Some p →
                procs w !! h = None → has_exited p = true).
      { intros h p Hp Hnew.
        destruct (decide (h = fresh (dom (procs w)))) as [-> | Hother].
        - destruct (sweep_reaps_registered w2 _ _ Hin Hobj) as (p' & Hp' & Hex).
          rewrite Hp' in Hp. by injection Hp as <-.
        - pose proof (sweep_procs (reverse (CHILDREN w2)) w2 h) as Hsw.
          cbv zeta in Hsw. rewrite (Hold h Hother), Hnew in Hsw.
          by rewrite Hsw in Hp. }
      destruct (code =? 0); intros [= <- <-];
        cbn [environ cwd fs handlers argv procs CHILDREN set_CHILDREN];
        rewrite He, Hc, Hf, Hh, Ha, He2, Hc2, Hf2, Hh2, Ha2; by repeat split.
    + intros [= <- <-]. by repeat split.
  - rewrite (run_supernode_not_found _ _ _ Hexec), cleanup_children_spec.
    destruct (sweep_frame (reverse (CHILDREN w)) w) as (He & Hc & Hf & _ & Hh & Ha).
    intros [= <- <-].
    cbn [environ cwd fs handlers argv procs CHILDREN set_CHILDREN].
    repeat split; try done.
    intros h p Hp Hnew.
    pose proof (sweep_procs (reverse (CHILDREN w)) w h) as Hsw. cbv zeta in Hsw.
    rewrite Hnew in Hsw. by rewrite Hsw in Hp.
Qed.

(** X20. Whatever [_plugin_main] is given and however it ends, [os.environ]
    and the working directory are as before and the two signal handlers are
    installed.  When it returns or raises, [sys.argv] is as before too, and
    no child that it has started is still running. *)
Theorem plugin_main_leaves_process_state `{Externals} (options : Namespace)
    (inputdir outputdir : Path) (w w' : World) (r : result unit) :
  _plugin_main options inputdir outputdir w = (r, w') →
  environ w' = environ w ∧ cwd w' = cwd w ∧
  handlers w' = {[SIGINT]} ∪ ({[SIGTERM]} ∪ handlers w) ∧
  (r ≠ Blocked →
     argv w' = argv w ∧
     ∀ h p, procs w' !! h = Some p → procs w !! h = None → has_exited p = true).
Proof.
  destruct (json_flag options) eqn:Hjson.
  { rewrite plugin_main_json by done. intros Hrun.
    destruct (emit_plugin_json_frame _ _ _ Hrun)
      as (He & Hc & _ & Hp & _ & Hh & _ & Ha).
    repeat split; try done.
    - by apply Ha.
    - intros h p Hsome Hnone. rewrite Hp in Hsome. cbn in Hsome. congruence. }
  destruct (decide (valid_pair options)) as [Hok | Hbad].
  2: { destruct (plugin_main_invalid options inputdir outputdir w Hjson Hbad) as [msg ->].
       intros [= <- <-]. repeat split; try done.
       intros h p Hsome Hnone. cbn in Hsome. congruence. }
  rewrite plugin_main_valid by done.
  destruct (_prepare_environment _ _ _) as [r1 w1] eqn:Hprep.
  destruct (prepare_environment_outcome _ _ _ _ _ Hprep)
    as ([(He1 & Hc1 & Hp1 & _ & Hh1 & Ha1 & _) _] & _).
  assert (Hnone1 : ∀ h p, procs w1 !! h = Some p → procs w !! h = None →
                          has_exited p = true).
  { intros h p Hsome Hnone. rewrite Hp1 in Hsome. cbn in Hsome. congruence. }
  destruct r1 as [[env home] | e |];
    [| intros [= <- <-]; by rewrite He1, Hc1, Hh1, Ha1
     | intros [= <- <-]; by rewrite He1, Hc1, Hh1, Ha1].
  destruct (try_finally _ _ w1) as [r2 w2] eqn:Hrun.
  destruct (supervised_run_frame _ _ _ _ _ Hrun) as (He2 & Hc2 & _ & Hh2 & Ha2 & Hlive).
  assert (Hnone2 : r2 ≠ Blocked →
            ∀ h p, procs w2 !! h = Some p → procs w !! h = None → has_exited p = true).
  { intros Hr h p Hsome Hnone. destruct (Hlive Hr) as [_ Hex].
    apply (Hex h p Hsome). rewrite Hp1. exact Hnone. }
  destruct r2 as [summary | e |];
    [| intros [= <- <-]; rewrite He2, Hc2, Hh2, Ha2, He1, Hc1, Hh1, Ha1;
       repeat split; try done; by apply Hnone2
     | intros [= <- <-]; by rewrite He2, Hc2, Hh2, He1, Hc1, Hh1].
  destruct (write_text_cases (Path_div outputdir (metrics_file options))
              (json_dumps summary 2) w2) as [(k & _ & ->) | (e & -> & _)];
    [| intros [= <- <-]; rewrite He2, Hc2, Hh2, Ha2, He1, Hc1, Hh1, Ha1;
       repeat split; try done; by apply Hnone2].
  set (w3 := set_fs _ w2).
  assert (Hw3 : environ w3 = environ w ∧ cwd w3 = cwd w ∧
                handlers w3 = {[SIGINT]} ∪ ({[SIGTERM]} ∪ handlers w) ∧
                argv w3 = argv w ∧ procs w3 = procs w2).
  { unfold w3. cbn [environ cwd handlers argv procs set_fs].
    by rewrite He2, Hc2, Hh2, Ha2, He1, Hc1, Hh1, Ha1. }
  destruct Hw3 as (He3 & Hc3 & Hh3 & Ha3 & Hp3).
  destruct (keep_state options).
  - intros [= <- <-]. repeat split; try done.
    intros h p. rewrite Hp3. by apply Hnone2.
  - destruct (rmtree_cases home w3) as [(key & _ & _ & ->) | [_ ->]];
      intros [= <- <-]; cbn [environ cwd handlers argv procs set_fs];
      repeat split; try done; intros h p; rewrite Hp3; by apply Hnone2.
Qed.

Lemma plugin_main_leaves_process_state_witness :
  let P := Sample.platform (Some Sample.crashing) in
  let run := @_plugin_main P default_options (Path_of "/in") (Path_of "/out")
               Sample.world0 in
  run.1 = Raise (RuntimeError "flower-supernode exited with 137") ∧
  environ run.2 = environ Sample.world0 ∧
  handlers run.2 = {[SIGINT]} ∪ ({[SIGTERM]} ∪ handlers Sample.world0) ∧
  ∀ h p, procs run.2 !! h = Some p → has_exited p = true.
Proof.
  intros P run.
  assert (Hrun : run = (Raise (RuntimeError "flower-supernode exited with 137"), run.2)).
  { vm_compute. reflexivity. }
  destruct (@plugin_main_leaves_process_state P default_options (Path_of "/in")
              (Path_of "/out") Sample.world0 run.2 _ Hrun) as (He & _ & Hh & Hrest).
  destruct Hrest as [_ Hex]; [done |].
  split; [by rewrite Hrun |]. split; [exact He |]. split; [exact Hh |].
  intros h p Hp. by apply (Hex h p Hp).
Defined.

(** ** The sweep outside an interrupted wait *)

(** X21. Outside the interrupted [wait()] of a registered child, as in the
    [finally] block of [_plugin_main], the sweep visits the registered
    handles in reverse registration order.  A handle whose child has exited
    is only polled.  A running child is asked to terminate and waited for
    during ten time units; if it is still there then, it is killed and
    waited for without limit.  The sweep returns, every registered child has
    been reaped, and the registry is empty. *)
Theorem sweep_outside_interrupted_wait (F : Frame) (w : World) :
  outside_wait F w →
  NoDup (CHILDREN w) →
  ∃ w',
    _cleanup_children (F := F) w = (Ok tt, w') ∧
    CHILDREN w' = [] ∧
    calls w' = (calls w ++ sweep_calls (procs w) (reverse (CHILDREN w)))%list ∧
    ∀ h p, h ∈ CHILDREN w → procs w !! h = Some p →
      procs w' !! h = Some (terminated p) ∧
      is_Some (returncode (terminated p)) ∧
      expected_calls p =
        if has_exited p then [Poll]
        else if exits_within 10 p then [Poll; Terminate; Wait (Some 10%nat)]
        else [Poll; Terminate; Wait (Some 10%nat); Kill; Wait None].
Proof.
  intros Hfree Hnd. eexists. split; [by apply cleanup_children_free |].
  assert (Hnd' : NoDup (reverse (CHILDREN w))) by by rewrite reverse_Permutation.
  destruct (sweep_spec _ w Hnd') as [Hcalls Hprocs].
  split; [done |]. split; [done |].
  intros h p Hin Hp. cbn [procs set_CHILDREN].
  rewrite Hprocs, decide_True, Hp by by apply elem_of_reverse.
  split; [done |]. split; [apply terminated_returncode | done].
Qed.

Lemma sweep_outside_interrupted_wait_witness :
  ∃ w',
    _cleanup_children (F := Some 1%nat) Sample.busy_world = (Ok tt, w') ∧
    CHILDREN w' = [] ∧
    calls w' =
      [ (4, Poll);
        (3, Poll); (3, Terminate); (3, Wait (Some 10)); (3, Kill); (3, Wait None);
        (2, Poll); (2, Terminate); (2, Wait (Some 10));
        (1, Poll) ]%nat.
Proof.
  destruct (sweep_outside_interrupted_wait (Some 1%nat) Sample.busy_world)
    as (w' & Hrun & Hreg & Hcalls & _).
  - intros h _ (HF & p & Hp & Hrc). injection HF as <-.
    vm_compute in Hp. injection Hp as <-. discriminate Hrc.
  - apply (bool_decide_unpack _). vm_compute. reflexivity.
  - exists w'. split; [done |]. split; [done |].
    rewrite Hcalls. vm_compute. reflexivity.
Defined.

(** X22. The sweep never raises, in whatever frame it runs.  A sweep that
    follows a sweep that has returned makes no call and leaves the world as
    it is.  And outside the interrupted [wait()] of that very handle,
    [_terminate_process] on a handle whose child has exited only polls it:
    no signal is sent, the child and the registry are as before. *)
Theorem sweep_twice_and_exited_handles (F F' : Frame) (w : World) :
  (∀ r w1, _cleanup_children (F := F) w = (r, w1) →
     (∀ e, r ≠ Raise e) ∧
     (r = Ok tt → _cleanup_children (F := F') w1 = (Ok tt, w1))) ∧
  (∀ h p, procs w !! h = Some p → has_exited p = true →
          ¬ inside_wait_of F w h →
     ∃ w',
       _terminate_process (F := F) h w = (Ok tt, w') ∧
       calls w' = (calls w ++ [(h, Poll)])%list ∧
       CHILDREN w' = CHILDREN w ∧
       (∃ p', procs w' !! h = Some p' ∧ child p' = child p) ∧
       ∀ h', h' ≠ h → procs w' !! h' = procs w !! h').
Proof.
  split.
  - intros r w1 Hrun.
    destruct (outside_or_inside F w) as [Hfree | (h & Hin & -> & p & Hp & Hrc)].
    + rewrite (cleanup_children_free w Hfree) in Hrun. injection Hrun as <- <-.
      split; [done |]. intros _.
      by rewrite cleanup_children_free by by intros h ?%elem_of_nil.
    + destruct (cleanup_children_stuck h w p Hin Hp Hrc) as (l1 & l2 & _ & _ & Hstuck).
      rewrite Hstuck in Hrun. injection Hrun as <- <-. by split.
  - intros h p Hp Hexited Hfree.
    eexists. split.
    { rewrite (terminate_process_free h w Hfree).
      by apply (terminate_process_spec h w p). }
    unfold sweep_one. rewrite Hp.
    destruct (terminated_exited p Hexited) as [-> Hchild].
    repeat split; cbn.
    + exists (terminated p). by rewrite lookup_insert_eq.
    + intros h' Hne. by rewrite lookup_insert_ne.
Qed.

Lemma sweep_twice_and_exited_handles_witness :
  (∃ w1, _cleanup_children (F := main_thread) Sample.busy_world = (Ok tt, w1) ∧
         _cleanup_children (F := Some 2%nat) w1 = (Ok tt, w1)) ∧
  (∃ w',
     _terminate_process (F := Some 3%nat) 4 Sample.busy_world = (Ok tt, w') ∧
     calls w' = [(4%nat, Poll)] ∧
     CHILDREN w' = [1; 2; 3; 4]%nat).
Proof.
  split.
  - destruct (sweep_twice_and_exited_handles main_thread (Some 2%nat) Sample.busy_world)
      as [Htwice _].
    pose (first := _cleanup_children (F := main_thread) Sample.busy_world).
    assert (Hfirst : first = (Ok tt, first.2)) by (vm_compute; reflexivity).
    destruct (Htwice (Ok tt) first.2 Hfirst) as [_ Hsecond].
    exists first.2. split; [exact Hfirst | by apply Hsecond].
  - destruct (sweep_twice_and_exited_handles (Some 3%nat) main_thread Sample.busy_world)
      as [_ Hexited].
    destruct (Hexited 4%nat (mkPopen ["d"] None None None (Exited 1)))
      as (w' & Hrun & Hcalls & Hreg & _).
    + vm_compute. reflexivity.
    + reflexivity.
    + intros [HF _]. discriminate HF.
    + by exists w'.
Defined.

(** ** The relay and an error of the decoder *)


